(** * Query normalisation of [claude_query_executor.py]

    A shallow embedding of the three methods of [IntegratedQueryGenerator]
    that repair a query produced by the language model

      - [validate_and_fix_query]   (shape correction),
      - [normalize_field_names]    (recursive renaming of field names),
      - [is_valid_query_structure] (final shape check),

    and of the part of [generate_query] that chains them, together with the
    properties of the specification that concern them.

    Conventions of the model.

      - A parsed JSON value is a tree [json].  A Python [dict] keeps its
        insertion order, so it is an association list; [dict_set] is the
        assignment [d[k] = v] (an existing key keeps its place and gets the
        new value, a new key goes to the end).
      - A Python [str] is a sequence of code points.  The model covers the
        code points U+0000 to U+00FF, one [ascii] each; on this range
        [str.lower] works character by character ([lower_char]).
      - An exception is a value of [exn]; a function that may raise returns
        a [result]. *)

From Stdlib Require Import List Bool Arith Lia NArith ZArith Sorted.
From Stdlib Require Import Strings.Ascii Strings.String.
From Stdlib Require Import Floats.SpecFloat.
Import ListNotations.

Local Open Scope string_scope.
Local Open Scope list_scope.

(* ================================================================== *)
(** ** Characters and strings *)

Module Chars.

Definition code (c : ascii) : N := N_of_ascii c.

Definition in_range (lo hi : N) (c : ascii) : bool :=
  (lo <=? code c)%N && (code c <=? hi)%N.

(** The character classes of the two regular expressions. *)
Definition is_upper (c : ascii) : bool := in_range 65 90 c.     (* [A-Z] *)
Definition is_lower (c : ascii) : bool := in_range 97 122 c.    (* [a-z] *)
Definition is_digit (c : ascii) : bool := in_range 48 57 c.     (* [0-9] *)
Definition is_lower_or_digit (c : ascii) : bool :=              (* [a-z0-9] *)
  is_lower c || is_digit c.

(** [.] matches every character but the line feed. *)
Definition is_dot (c : ascii) : bool := negb (code c =? 10)%N.

(** Letters with a lowercase form among U+0000..U+00FF: A-Z, and the
    Latin-1 capitals U+00C0..U+00DE without the multiplication sign
    U+00D7.  The lowercase form is 32 further on. *)
Definition has_lowercase (c : ascii) : bool :=
  is_upper c || (in_range 192 222 c && negb (code c =? 215)%N).

Definition lower_char (c : ascii) : ascii :=
  if has_lowercase c then ascii_of_N (code c + 32) else c.

Definition underscore : ascii := "_"%char.
Definition sigil : ascii := "$"%char.

(** The characters a snake_case name is written with. *)
Definition is_snake_char (c : ascii) : bool :=
  is_lower c || is_digit c || Ascii.eqb c underscore.

(** The characters of an identifier: letters, digits, underscore. *)
Definition is_ident_char (c : ascii) : bool :=
  is_upper c || is_snake_char c.

End Chars.
Import Chars.

(** [str.lower()] *)
Fixpoint lower (s : string) : string :=
  match s with
  | EmptyString => EmptyString
  | String c s' => String (lower_char c) (lower s')
  end.

(** [s.startswith('$')] *)
Definition starts_with_sigil (s : string) : bool :=
  match s with
  | String c _ => Ascii.eqb c sigil
  | EmptyString => false
  end.

(** [s[1:]] *)
Definition drop_first (s : string) : string :=
  match s with
  | String _ s' => s'
  | EmptyString => EmptyString
  end.

(** Every character of [s] satisfies [p]. *)
Fixpoint all_chars (p : ascii -> bool) (s : string) : bool :=
  match s with
  | EmptyString => true
  | String c s' => p c && all_chars p s'
  end.

(** The first character of [s] exists and satisfies [p]. *)
Definition head_is (p : ascii -> bool) (s : string) : bool :=
  match s with
  | String c _ => p c
  | EmptyString => false
  end.

(** The longest prefix of [s] in the class [p], and what follows it. *)
Fixpoint take_while (p : ascii -> bool) (s : string) : string :=
  match s with
  | String c s' => if p c then String c (take_while p s') else EmptyString
  | EmptyString => EmptyString
  end.

Fixpoint drop_while (p : ascii -> bool) (s : string) : string :=
  match s with
  | String c s' => if p c then drop_while p s' else s
  | EmptyString => EmptyString
  end.

(* ================================================================== *)
(** ** The two substitutions of [convert_to_snake_case]

    [re.sub] scans the text from the left, replaces the leftmost match,
    resumes right after it, and copies the characters no match covers.
    Both patterns match at least two characters, so no empty match
    arises. *)

(** [re.sub('(.)([A-Z][a-z]+)', r'\1_\2', text)].

    A match at the head of the text is a character other than the line
    feed, an uppercase letter, and the longest non-empty run of lowercase
    letters.  The flag [in_run] says that the scan is inside the run of a
    match already begun: the lowercase letters met there belong to that
    match and are copied (group 2 is greedy). *)
Fixpoint sub_word_run (in_run : bool) (text : string) : string :=
  match text with
  | EmptyString => EmptyString
  | String c rest =>
      if in_run && is_lower c then String c (sub_word_run true rest)
      else
        match rest with
        | String u (String l rest') =>
            if is_dot c && is_upper u && is_lower l
            then String c (String underscore (String u (String l
                   (sub_word_run true rest'))))
            else String c (sub_word_run false rest)
        | _ => String c (sub_word_run false rest)
        end
  end.

(** [re.sub('([a-z0-9])([A-Z])', r'\1_\2', s1)] *)
Fixpoint sub_hump (s1 : string) : string :=
  match s1 with
  | EmptyString => EmptyString
  | String c rest =>
      match rest with
      | String u rest' =>
          if is_lower_or_digit c && is_upper u
          then String c (String underscore (String u (sub_hump rest')))
          else String c (sub_hump rest)
      | EmptyString => String c EmptyString
      end
  end.

(** [convert_to_snake_case] *)
Definition convert_to_snake_case (text : string) : string :=
  let s1 := sub_word_run false text in
  lower (sub_hump s1).





(** A name written with lowercase letters, digits and underscores only. *)
Definition is_snake_case (s : string) : bool := all_chars is_snake_char s.

(** A name written with letters, digits and underscores only. *)
Definition is_identifier (s : string) : bool := all_chars is_ident_char s.

(** A string without any of the letters A-Z. *)
Definition no_upper (s : string) : bool :=
  all_chars (fun c => negb (is_upper c)) s.

(* ================================================================== *)
(** ** Dictionaries *)

Section Dict.

Context {A : Type}.

Definition dict : Type := list (string * A).

Definition keys (d : dict) : list string := map fst d.
Definition values (d : dict) : list A := map snd d.

(** [d.get(k)]: the value of [k], if [d] has the key. *)
Fixpoint dict_get (k : string) (d : dict) : option A :=
  match d with
  | [] => None
  | (k', v) :: d' => if String.eqb k' k then Some v else dict_get k d'
  end.

(** [k in d] *)
Definition dict_mem (k : string) (d : dict) : bool :=
  match dict_get k d with
  | Some _ => true
  | None => false
  end.

(** [d[k] = v] *)
Fixpoint dict_set (k : string) (v : A) (d : dict) : dict :=
  match d with
  | [] => [(k, v)]
  | (k', v') :: d' =>
      if String.eqb k' k then (k', v) :: d'
      else (k', v') :: dict_set k v d'
  end.

End Dict.

Arguments dict A : clear implicits.

(** The names of a list are pairwise different. *)
Fixpoint distinct (l : list string) : bool :=
  match l with
  | [] => true
  | k :: l' => negb (existsb (String.eqb k) l') && distinct l'
  end.

(* ================================================================== *)
(** ** JSON values *)

(** What [json.loads] returns: [None], [bool], [int], [float], [str],
    [list] and [dict] with string keys. *)
Unset Elimination Schemes.
Inductive json : Type :=
| JNull
| JBool (b : bool)
| JInt (n : Z)
| JFloat (f : spec_float)
| JStr (s : string)
| JList (items : list json)
| JDict (entries : dict json).
Set Elimination Schemes.

Definition isinstance_list (v : json) : bool :=
  match v with JList _ => true | _ => false end.
Definition isinstance_dict (v : json) : bool :=
  match v with JDict _ => true | _ => false end.
Definition isinstance_bool (v : json) : bool :=
  match v with JBool _ => true | _ => false end.

(** [isinstance(d[k], T)] for a key the caller has found in [d]. *)
Definition item_is (T : json -> bool) (k : string) (d : dict json) : bool :=
  match dict_get k d with
  | Some v => T v
  | None => false
  end.

(* ================================================================== *)
(** ** Exceptions *)

Inductive exn : Type :=
| ValueError (msg : string)
| Exception (msg : string).

(** [str(e)] *)
Definition exn_str (e : exn) : string :=
  match e with
  | ValueError msg => msg
  | Exception msg => msg
  end.

Inductive result (A : Type) : Type :=
| Ok (a : A)
| Raise (e : exn).

Arguments Ok {A} a.
Arguments Raise {A} e.

Definition bind {A B : Type} (r : result A) (f : A -> result B) : result B :=
  match r with
  | Ok a => f a
  | Raise e => Raise e
  end.

Notation "x <- r ;; k" := (bind r (fun x => k))
  (at level 61, r at next level, right associativity).

(** [try: body except Exception as e: handler(e)] *)
Definition try_except {A : Type} (body : result A) (handler : exn -> result A)
  : result A :=
  match body with
  | Ok a => Ok a
  | Raise e => handler e
  end.

(* ================================================================== *)
(** ** [validate_and_fix_query] *)

Definition query_format_not_recognized : exn :=
  ValueError "Query format not recognized".

Definition wrap_pipeline (pipeline : json) : json :=
  JDict [("aggregate", JBool true); ("pipeline", pipeline)].

Definition validate_and_fix_query (query : json) : result json :=
  match query with
  | JList _ =>
      (* a bare pipeline array *)
      Ok (wrap_pipeline query)
  | JDict d =>
      if dict_mem "$match" d || dict_mem "$group" d || dict_mem "$sort" d
      then Ok (wrap_pipeline (JList [query]))
      else if dict_mem "aggregate" d && dict_mem "pipeline" d
      then Ok query
      else Ok query
  | _ => Raise query_format_not_recognized
  end.

(* ================================================================== *)
(** ** [normalize_field_names] *)

Definition field_mappings : dict string :=
  [ ("creationDate", "creation_date");
    ("purchaseDate", "purchase_date");
    ("fiscalYear", "fiscal_year");
    ("lpaNumber", "lpa_number");
    ("purchaseOrderNumber", "purchase_order_number");
    ("requisitionNumber", "requisition_number");
    ("acquisitionType", "acquisition_type");
    ("subAcquisitionType", "sub_acquisition_type");
    ("acquisitionMethod", "acquisition_method");
    ("subAcquisitionMethod", "sub_acquisition_method");
    ("departmentName", "department_name");
    ("supplierCode", "supplier_code");
    ("supplierName", "supplier_name");
    ("supplierQualifications", "supplier_qualifications");
    ("supplierZipCode", "supplier_zip_code");
    ("itemName", "item_name");
    ("itemDescription", "item_description");
    ("unitPrice", "unit_price");
    ("totalPrice", "total_price");
    ("classificationCodes", "classification_codes");
    ("normalizedUnspsc", "normalized_unspsc");
    ("commodityTitle", "commodity_title");
    ("classTitle", "class_title");
    ("familyTitle", "family_title");
    ("segmentTitle", "segment_title") ].

(** [field_mappings.get(name, convert_to_snake_case(name))] *)
Definition resolve_name (name : string) : string :=
  match dict_get name field_mappings with
  | Some canonical => canonical
  | None => convert_to_snake_case name
  end.

(** The [new_key] of the loop of [fix_fields]. *)
Definition new_key_of (key : string) : string :=
  if starts_with_sigil key then key else resolve_name key.

(** The rewriting of a field reference: the [if isinstance(value, str) and
    value.startswith('$')] of the loop. *)
Definition fix_reference (value : json) : json :=
  match value with
  | JStr s =>
      if starts_with_sigil s
      then JStr (String sigil (resolve_name (drop_first s)))
      else value
  | _ => value
  end.

(** [fix_fields].  In the loop over a dict the source rewrites [value]
    when it is a field reference and then calls [fix_fields] on it; the
    call on a rewritten reference is a call on a string, which returns
    it, so that branch is written without the call here (the recursion
    stays structural) and [fix_fields_dict] gives the equation in the
    source's form. *)
Fixpoint fix_fields (obj : json) : json :=
  match obj with
  | JDict d =>
      JDict (fold_left
               (fun new_dict item =>
                  let key := fst item in
                  let value := snd item in
                  let fixed :=
                    match value with
                    | JStr s => if starts_with_sigil s
                                then fix_reference value
                                else fix_fields value
                    | _ => fix_fields value
                    end in
                  dict_set (new_key_of key) fixed new_dict)
               d [])
  | JList items => JList (map fix_fields items)
  | _ => obj
  end.

Definition normalize_field_names (query : json) : json := fix_fields query.

(** What one turn of the loop stores: [fix_fields] of the value, after
    the rewriting of a field reference. *)
Definition fix_value (value : json) : json := fix_fields (fix_reference value).

(** The loop of [fix_fields] over the items of a dict. *)
Definition fix_items (d : dict json) (new_dict : dict json) : dict json :=
  fold_left
    (fun acc item => dict_set (new_key_of (fst item)) (fix_value (snd item)) acc)
    d new_dict.

(** What one turn of the loop makes of an item. *)
Definition fix_item (item : string * json) : string * json :=
  (new_key_of (fst item), fix_value (snd item)).

(* ================================================================== *)
(** ** [is_valid_query_structure] *)

Definition is_valid_query_structure (query : json) : bool :=
  match query with
  | JDict d =>
      if dict_mem "aggregate" d
      then item_is isinstance_bool "aggregate" d
           && dict_mem "pipeline" d
           && item_is isinstance_list "pipeline" d
      else true
  | _ => false
  end.

(* ================================================================== *)
(** ** [generate_query], from the parsed response on

    The call of the model and [json.loads] come before; [query] is the
    value [json.loads] returned. *)

Definition invalid_query_structure : exn :=
  ValueError "Invalid query structure after fixes".

Definition generate_query (query : json) : result json :=
  try_except
    (query <- validate_and_fix_query query ;;
     let query := normalize_field_names query in
     if negb (is_valid_query_structure query)
     then Raise invalid_query_structure
     else Ok query)
    (fun e => Raise (Exception ("Error generating query: " ++ exn_str e)%string)).

(** The two failures as the caller sees them. *)
Definition InvalidQueryFormat : exn :=
  Exception "Error generating query: Query format not recognized".
Definition InvalidQueryStructure : exn :=
  Exception "Error generating query: Invalid query structure after fixes".

(* ================================================================== *)
(** ** Positions in a tree *)

Inductive step : Type :=
| Key (k : string)
| Index (i : nat).

Definition path : Type := list step.

(** The value found by following [p] from [t]. *)
Fixpoint get_path (t : json) (p : path) : option json :=
  match p with
  | [] => Some t
  | Key k :: p' =>
      match t with
      | JDict d =>
          match dict_get k d with
          | Some v => get_path v p'
          | None => None
          end
      | _ => None
      end
  | Index i :: p' =>
      match t with
      | JList items =>
          match nth_error items i with
          | Some v => get_path v p'
          | None => None
          end
      | _ => None
      end
  end.

(** The same position after the renaming of the keys on the way. *)
Definition rename_step (s : step) : step :=
  match s with
  | Key k => Key (new_key_of k)
  | Index i => Index i
  end.

Definition rename_path (p : path) : path := map rename_step p.

(** The items of [d] that come after the first item of key [k]. *)
Fixpoint items_after (k : string) (d : dict json) : dict json :=
  match d with
  | [] => []
  | (k', _) :: d' => if String.eqb k' k then d' else items_after k d'
  end.

(** No key that comes after [k] in [d] gets the new name of [k]. *)
Definition not_renamed_later (k : string) (d : dict json) : bool :=
  forallb
    (fun item => negb (String.eqb (new_key_of (fst item)) (new_key_of k)))
    (items_after k d).

(** In every map on the way along [p], no later key gets the new name of
    the key on the way. *)
Fixpoint kept_along (t : json) (p : path) : bool :=
  match p with
  | [] => true
  | Key k :: p' =>
      match t with
      | JDict d =>
          not_renamed_later k d
          && match dict_get k d with
             | Some v => kept_along v p'
             | None => true
             end
      | _ => true
      end
  | Index i :: p' =>
      match t with
      | JList items =>
          match nth_error items i with
          | Some v => kept_along v p'
          | None => true
          end
      | _ => true
      end
  end.

(** Every key of every map of the tree satisfies [ok]. *)
Fixpoint all_keys (ok : string -> bool) (t : json) : bool :=
  match t with
  | JDict d =>
      forallb (fun item => ok (fst item) && all_keys ok (snd item)) d
  | JList items => forallb (all_keys ok) items
  | _ => true
  end.

(** Some map of the tree has the key [k]. *)
Fixpoint occurs_key (k : string) (t : json) : bool :=
  match t with
  | JDict d =>
      existsb (fun item => String.eqb (fst item) k || occurs_key k (snd item)) d
  | JList items => existsb (occurs_key k) items
  | _ => false
  end.

Definition plain_key_ok (ok : string -> bool) (k : string) : bool :=
  starts_with_sigil k || ok k.

(* ================================================================== *)
(** ** Trees in the naming convention of the database *)

(** A string none of whose characters has a lowercase form: [lower]
    leaves it as it is. *)
Definition is_lowercase (s : string) : bool :=
  all_chars (fun c => negb (has_lowercase c)) s.

(** The text without its underscores. *)
Fixpoint remove_underscores (s : string) : string :=
  match s with
  | EmptyString => EmptyString
  | String c s' =>
      if Ascii.eqb c underscore then remove_underscores s'
      else String c (remove_underscores s')
  end.

(** Every field reference that [fix_fields] rewrites (a string that
    begins with "$" and is the value of a key) has a name, after the
    "$", that satisfies [ok]. *)
Fixpoint all_references (ok : string -> bool) (t : json) : bool :=
  match t with
  | JDict d =>
      forallb
        (fun item =>
           match snd item with
           | JStr s => if starts_with_sigil s then ok (drop_first s) else true
           | _ => all_references ok (snd item)
           end) d
  | JList items => forallb (all_references ok) items
  | _ => true
  end.

(** The keys of every dict of the tree are pairwise different, as they
    are in every Python dict. *)
Fixpoint distinct_keys (t : json) : bool :=
  match t with
  | JDict d => distinct (keys d) && forallb (fun item => distinct_keys (snd item)) d
  | JList items => forallb distinct_keys items
  | _ => true
  end.

(* ================================================================== *)
(** ** [run_query]

    The collection is outside the program: a call of [aggregate] or
    [find], with the [list(results)] that follows, gives the documents
    or raises, and [run_query] keeps [str(e)] of what was raised. *)

Inductive db_reply : Type :=
| Rows (documents : list json)
| DbError (message : string).

(** What the program calls and does not define: the model behind
    [self.client.messages.create] with [json.loads] of its answer, and
    the two operations of [self.collection]. *)
Record services : Type := {
  model_response : string -> result json;
  collection_aggregate : json -> db_reply;
  collection_find : json -> db_reply
}.

(** The pair that [run_query] returns: [(True, results_list)] or
    [(False, str(e))]. *)
Inductive run_outcome : Type :=
| Executed (results_list : list json)
| NotExecuted (message : string).

Definition outcome_of (r : db_reply) : run_outcome :=
  match r with
  | Rows documents => Executed documents
  | DbError message => NotExecuted message
  end.

(** The truth value of a JSON value in an [if]. *)
Definition truthy (v : json) : bool :=
  match v with
  | JNull => false
  | JBool b => b
  | JInt n => negb (n =? 0)%Z
  | JFloat f => match f with S754_zero _ => false | _ => true end
  | JStr s => negb (String.eqb s "")
  | JList items => match items with [] => false | _ => true end
  | JDict d => match d with [] => false | _ => true end
  end.

(** [str(KeyError('pipeline'))] *)
Definition key_error_pipeline : string := "'pipeline'".

Definition run_query (env : services) (query : json) : run_outcome :=
  match query with
  | JDict d =>
      if dict_mem "aggregate" d
      then if item_is truthy "aggregate" d
           then match dict_get "pipeline" d with
                | Some pipeline => outcome_of (collection_aggregate env pipeline)
                | None => NotExecuted key_error_pipeline
                end
           else outcome_of (collection_find env query)
      else outcome_of (collection_find env query)
  | _ => outcome_of (collection_find env query)
  end.

(** [generate_query] from the question on: the answer of the model is
    parsed and goes through the three steps; whatever is raised on the
    way is raised again as [Exception("Error generating query: ...")]. *)
Definition generate_query_for (env : services) (question : string)
  : result json :=
  try_except
    (query <- model_response env question ;;
     query <- validate_and_fix_query query ;;
     let query := normalize_field_names query in
     if negb (is_valid_query_structure query)
     then Raise invalid_query_structure
     else Ok query)
    (fun e => Raise (Exception ("Error generating query: " ++ exn_str e)%string)).

(* ================================================================== *)
(** ** [process_questions_file]

    The lines of the input file are given as the list that the iteration
    over the file yields.  What is printed and what is written to the two
    JSON files is left out, but for the three numbers of the summary;
    the success rate, a float, is left out too. *)

(** The characters [str.strip] removes, among U+0000..U+00FF. *)
Definition is_space (c : ascii) : bool :=
  in_range 9 13 c || in_range 28 32 c
  || (code c =? 133)%N || (code c =? 160)%N.

Definition lstrip (s : string) : string := drop_while is_space s.

Fixpoint rstrip (s : string) : string :=
  match s with
  | EmptyString => EmptyString
  | String c rest =>
      match rstrip rest with
      | EmptyString => if is_space c then EmptyString else String c EmptyString
      | kept => String c kept
      end
  end.

(** [s.strip()] *)
Definition strip (s : string) : string := rstrip (lstrip s).

(** An entry of [successful_queries]. *)
Record success_entry : Type := {
  sq_question : string;
  sq_query : json;
  sq_result_count : nat
}.

(** An entry of [self.error_log]; the key 'query' is absent when no
    query was generated. *)
Record error_entry : Type := {
  err_line_number : nat;
  err_question : string;
  err_query : option json;
  err_error : string
}.

(** The fields of the generator that the loop updates, and the local
    list [successful_queries]. *)
Record tracking : Type := {
  error_log : list error_entry;
  success_count : nat;
  error_count : nat;
  successful_queries : list success_entry
}.


(** The body of the loop for one line of the file. *)
Definition process_line (env : services) (line_number : nat) (line : string)
  (st : tracking) : tracking :=
  let question := strip line in
  if String.eqb question "" then st      (* skip empty lines *)
  else
    match generate_query_for env question with
    | Ok query =>
        match run_query env query with
        | Executed results =>
            {| error_log := error_log st;
               success_count := success_count st + 1;
               error_count := error_count st;
               successful_queries :=
                 successful_queries st
                 ++ [ {| sq_question := question;
                         sq_query := query;
                         sq_result_count := List.length results |} ] |}
        | NotExecuted message =>
            let error_msg := ("Query execution failed: " ++ message)%string in
            {| error_log :=
                 error_log st
                 ++ [ {| err_line_number := line_number;
                         err_question := question;
                         err_query := Some query;
                         err_error := error_msg |} ];
               success_count := success_count st;
               error_count := error_count st + 1;
               successful_queries := successful_queries st |}
        end
    | Raise e =>
        let error_msg := ("Error processing question: " ++ exn_str e)%string in
        {| error_log :=
             error_log st
             ++ [ {| err_line_number := line_number;
                     err_question := question;
                     err_query := None;
                     err_error := error_msg |} ];
           success_count := success_count st;
           error_count := error_count st + 1;
           successful_queries := successful_queries st |}
    end.

(** [for line_number, question in enumerate(f, start)] *)
Fixpoint process_lines (env : services) (start : nat) (lines : list string)
  (st : tracking) : tracking :=
  match lines with
  | [] => st
  | line :: rest =>
      process_lines env (S start) rest (process_line env start line st)
  end.

(** The numbers of the summary. *)
Record summary : Type := {
  total_questions_processed : nat;
  successful : nat;
  failed : nat
}.

(** [enumerate(f, start)] *)
Definition enumerate (start : nat) (lines : list string)
  : list (nat * string) :=
  combine (seq start (List.length lines)) lines.

(** The variable [line_number] once the [for] statement is over: the
    statement binds it to the number of each line it takes from the
    file, before the body decides to skip the line; it stays unbound
    ([None]) when the file gives no line. *)
Definition line_number_after_loop (lines : list string) : option nat :=
  fold_left (fun _ numbered => Some (fst numbered)) (enumerate 1 lines) None.

(** The prints of the summary either go through or stop at the first
    name that is unbound. *)
Inductive summary_attempt : Type :=
| Printed (s : summary)
| UnboundLocalError (name : string).

Definition print_summary (st : tracking) (line_number : option nat)
  : summary_attempt :=
  match line_number with
  | Some n =>
      Printed {| total_questions_processed := n;
                 successful := success_count st;
                 failed := error_count st |}
  | None => UnboundLocalError "line_number"
  end.

(** How the call ends: with the summary, or with [sys.exit(1)]. *)
Inductive ending : Type :=
| Summary (s : summary)
| Exit1.

(** The loop, then the summary inside the [try] whose
    [except Exception] prints the error and calls [sys.exit(1)]. *)
Definition process_questions_file (env : services) (lines : list string)
  (st : tracking) : tracking * ending :=
  let st' :=
    process_lines env 1 lines
      {| error_log := error_log st;
         success_count := success_count st;
         error_count := error_count st;
         successful_queries := [] |} in
  (st',
   match print_summary st' (line_number_after_loop lines) with
   | Printed s => Summary s
   | UnboundLocalError _ => Exit1
   end).

(** The test of the second rule of [validate_and_fix_query]. *)
Definition has_stage_key (d : dict json) : bool :=
  dict_mem "$match" d || dict_mem "$group" d || dict_mem "$sort" d.

(** The lines that are skipped, and the others. *)
Definition is_blank (line : string) : bool := all_chars is_space line.

Definition questions_of (lines : list string) : list string :=
  filter (fun line => negb (is_blank line)) lines.

(** What an entry of the error log says about the line it comes from:
    either no query could be generated, and the entry has no query, or
    the generated query could not be run, and the entry has it. *)
Definition error_entry_of (env : services) (line : string) (e : error_entry)
  : Prop :=
  is_blank line = false
  /\ err_question e = strip line
  /\ ((exists message,
          generate_query_for env (strip line) =
          Raise (Exception ("Error generating query: " ++ message)%string)
          /\ err_query e = None
          /\ err_error e =
             ("Error processing question: Error generating query: "
              ++ message)%string)
      \/ (exists query message,
             generate_query_for env (strip line) = Ok query
             /\ run_query env query = NotExecuted message
             /\ err_query e = Some query
             /\ err_error e = ("Query execution failed: " ++ message)%string)).

(** What an entry of [successful_queries] says about its line. *)
Definition success_entry_of (env : services) (line : string) (s : success_entry)
  : Prop :=
  is_blank line = false
  /\ sq_question s = strip line
  /\ generate_query_for env (strip line) = Ok (sq_query s)
  /\ exists documents,
       run_query env (sq_query s) = Executed documents
       /\ sq_result_count s = List.length documents.

(** The entry is that of the line with its number, the first line having
    the number [start]. *)
Definition error_entry_at (env : services) (start : nat) (lines : list string)
  (e : error_entry) : Prop :=
  start <= err_line_number e
  /\ exists line,
       nth_error lines (err_line_number e - start) = Some line
       /\ error_entry_of env line e.

Definition success_entry_in (env : services) (lines : list string)
  (s : success_entry) : Prop :=
  exists line, In line lines /\ success_entry_of env line s.

(* ================================================================== *)
(** * Properties *)

(** ** Induction on JSON trees *)

Section JsonInduction.

Variable P : json -> Prop.
Hypothesis P_null : P JNull.
Hypothesis P_bool : forall b, P (JBool b).
Hypothesis P_int : forall n, P (JInt n).
Hypothesis P_float : forall f, P (JFloat f).
Hypothesis P_str : forall s, P (JStr s).
Hypothesis P_list : forall items, Forall P items -> P (JList items).
Hypothesis P_dict :
  forall d, Forall (fun item => P (snd item)) d -> P (JDict d).

Lemma json_ind : forall t, P t.
Proof.
  fix self 1.
  intros [ | b | n | f | s | items | d ].
  - exact P_null.
  - apply P_bool.
  - apply P_int.
  - apply P_float.
  - apply P_str.
  - apply P_list.
    revert items. fix on_items 1.
    intros [ | x xs ].
    + constructor.
    + constructor; [ apply self | apply on_items ].
  - apply P_dict.
    revert d. fix on_items 1.
    intros [ | [k v] rest ].
    + constructor.
    + constructor; [ apply self | apply on_items ].
Qed.

End JsonInduction.

(** ** Characters *)

Ltac by_cases_on_char c :=
  destruct c as [[] [] [] [] [] [] [] []]; vm_compute; try reflexivity;
  try discriminate; auto.

Lemma lower_char_idem c : lower_char (lower_char c) = lower_char c.
Proof. by_cases_on_char c. Qed.

Lemma lower_char_not_upper c : is_upper (lower_char c) = false.
Proof. by_cases_on_char c. Qed.

Lemma upper_not_lower_or_digit c :
  is_upper c = true -> is_lower_or_digit c = false.
Proof. by_cases_on_char c. Qed.



Lemma ident_lower_snake c :
  is_ident_char c = true -> is_snake_char (lower_char c) = true.
Proof. by_cases_on_char c. Qed.

Lemma snake_char_not_upper c : is_snake_char c = true -> is_upper c = false.
Proof. by_cases_on_char c. Qed.

Lemma lower_char_sigil c :
  Ascii.eqb (lower_char c) sigil = Ascii.eqb c sigil.
Proof. by_cases_on_char c. Qed.

(** ** Strings *)

Lemma lower_idem s : lower (lower s) = lower s.
Proof.
  induction s as [ | c s IH ]; simpl; [ reflexivity | ].
  now rewrite lower_char_idem, IH.
Qed.

Lemma no_upper_lower s : no_upper (lower s) = true.
Proof.
  induction s as [ | c s IH ]; simpl; [ reflexivity | ].
  unfold no_upper in *. simpl.
  now rewrite lower_char_not_upper, IH.
Qed.

Lemma all_chars_impl (p q : ascii -> bool) s :
  (forall c, p c = true -> q c = true) ->
  all_chars p s = true -> all_chars q s = true.
Proof.
  intros Hpq. induction s as [ | c s IH ]; simpl; [ reflexivity | ].
  intros H. apply andb_true_iff in H as [Hc Hs].
  now rewrite (Hpq _ Hc), IH.
Qed.

Lemma all_chars_lower (p q : ascii -> bool) s :
  (forall c, p c = true -> q (lower_char c) = true) ->
  all_chars p s = true -> all_chars q (lower s) = true.
Proof.
  intros Hpq. induction s as [ | c s IH ]; simpl; [ reflexivity | ].
  intros H. apply andb_true_iff in H as [Hc Hs].
  now rewrite (Hpq _ Hc), IH.
Qed.

Lemma string_strong_ind (P : string -> Prop) :
  (forall s, (forall s', String.length s' < String.length s -> P s') -> P s) ->
  forall s, P s.
Proof.
  intros step s.
  assert (H : forall n s', String.length s' < n -> P s').
  { induction n as [ | n IH ]; intros s' Hlt; [ lia | ].
    apply step. intros s'' Hlt'. apply IH. lia. }
  apply (H (S (String.length s))). lia.
Qed.

Ltac split_andb :=
  repeat match goal with
         | H : _ && _ = true |- _ => apply andb_true_iff in H as [? ?]
         end.

(** The first substitution copies the text and adds underscores only. *)
Lemma sub_word_run_all_chars (p : ascii -> bool) :
  p underscore = true ->
  forall s, all_chars p s = true ->
  forall b, all_chars p (sub_word_run b s) = true.
Proof.
  intros Hu s. induction s as [s IH] using string_strong_ind.
  intros Hs b. destruct s as [ | c rest ]; [ reflexivity | ].
  cbn [all_chars] in Hs. split_andb.
  cbn [sub_word_run]. destruct (b && is_lower c).
  - cbn [all_chars]. apply andb_true_iff. split; [ assumption | ].
    apply IH; [ simpl; lia | assumption ].
  - assert (Hplain : all_chars p (String c (sub_word_run false rest)) = true).
    { cbn [all_chars]. apply andb_true_iff. split; [ assumption | ].
      apply IH; [ simpl; lia | assumption ]. }
    destruct rest as [ | u [ | l rest' ] ]; try exact Hplain.
    destruct (is_dot c && is_upper u && is_lower l); [ | exact Hplain ].
    cbn [all_chars] in *. split_andb.
    repeat (apply andb_true_iff; split; try assumption).
    apply IH; [ simpl; lia | assumption ].
Qed.

Lemma sub_hump_pair c u rest :
  sub_hump (String c (String u rest)) =
  if is_lower_or_digit c && is_upper u
  then String c (String underscore (String u (sub_hump rest)))
  else String c (sub_hump (String u rest)).
Proof. reflexivity. Qed.

(** So does the second. *)
Lemma sub_hump_all_chars (p : ascii -> bool) :
  p underscore = true ->
  forall s, all_chars p s = true -> all_chars p (sub_hump s) = true.
Proof.
  intros Hu s. induction s as [s IH] using string_strong_ind.
  intros Hs. destruct s as [ | c [ | u rest' ] ]; try assumption.
  cbn [all_chars] in Hs. split_andb.
  rewrite sub_hump_pair. destruct (is_lower_or_digit c && is_upper u).
  - cbn [all_chars]. repeat (apply andb_true_iff; split; try assumption).
    apply IH; [ simpl; lia | assumption ].
  - cbn [all_chars]. apply andb_true_iff. split; [ assumption | ].
    apply IH; [ simpl; lia | ].
    cbn [all_chars]. now apply andb_true_iff.
Qed.

(** Without an uppercase letter nothing matches. *)
Lemma sub_word_run_no_upper s :
  no_upper s = true -> forall b, sub_word_run b s = s.
Proof.
  unfold no_upper. induction s as [ | c rest IH ]; intros Hs b;
    [ reflexivity | ].
  cbn [all_chars] in Hs. split_andb.
  cbn [sub_word_run]. destruct (b && is_lower c).
  - now rewrite IH.
  - destruct rest as [ | u [ | l rest' ] ]; try now rewrite IH.
    cbn [all_chars] in *. split_andb.
    destruct (is_upper u); [ discriminate | ].
    rewrite andb_false_r. cbn [andb].
    rewrite IH; [ reflexivity | ].
    cbn [all_chars]. repeat (apply andb_true_iff; split; try assumption).
Qed.

Lemma sub_hump_no_upper s : no_upper s = true -> sub_hump s = s.
Proof.
  unfold no_upper. induction s as [ | c rest IH ]; intros Hs;
    [ reflexivity | ].
  cbn [all_chars] in Hs. split_andb.
  destruct rest as [ | u rest' ]; [ reflexivity | ].
  rewrite sub_hump_pair.
  cbn [all_chars] in *. split_andb.
  destruct (is_upper u); [ discriminate | ].
  rewrite andb_false_r.
  rewrite IH; [ reflexivity | ].
  cbn [all_chars]. apply andb_true_iff. split; [ reflexivity | assumption ].
Qed.

Lemma convert_no_upper s : no_upper (convert_to_snake_case s) = true.
Proof. apply no_upper_lower. Qed.

Lemma convert_of_no_upper s :
  no_upper s = true -> convert_to_snake_case s = lower s.
Proof.
  intros H. unfold convert_to_snake_case.
  rewrite (sub_word_run_no_upper s H). now rewrite sub_hump_no_upper.
Qed.

Lemma convert_idem s :
  convert_to_snake_case (convert_to_snake_case s) = convert_to_snake_case s.
Proof.
  rewrite convert_of_no_upper by apply convert_no_upper.
  apply lower_idem.
Qed.

Lemma convert_identifier s :
  is_identifier s = true -> is_snake_case (convert_to_snake_case s) = true.
Proof.
  intros H. unfold convert_to_snake_case, is_snake_case.
  apply (all_chars_lower is_ident_char); [ apply ident_lower_snake | ].
  apply sub_hump_all_chars; [ reflexivity | ].
  apply sub_word_run_all_chars; [ reflexivity | exact H ].
Qed.

Lemma sub_word_run_cons b c rest :
  sub_word_run b (String c rest) =
  if b && is_lower c then String c (sub_word_run true rest)
  else
    match rest with
    | String u (String l rest') =>
        if is_dot c && is_upper u && is_lower l
        then String c (String underscore (String u (String l
               (sub_word_run true rest'))))
        else String c (sub_word_run false rest)
    | _ => String c (sub_word_run false rest)
    end.
Proof. reflexivity. Qed.

(** ** The first substitution and the matches of its pattern

    The flag of [sub_word_run] stands for the greedy group: inside a run
    the lowercase letters are copied and the scan resumes after them. *)

Lemma sub_word_run_in_run s :
  sub_word_run true s =
  (take_while is_lower s ++ sub_word_run false (drop_while is_lower s))%string.
Proof.
  induction s as [ | c rest IH ]; [ reflexivity | ].
  rewrite !sub_word_run_cons. cbn [take_while drop_while andb].
  destruct (is_lower c).
  - cbn [String.append]. now rewrite IH.
  - cbn [String.append]. now rewrite sub_word_run_cons.
Qed.

(** A match at the head: the three characters, the rest of the run, and
    the scan goes on after the run. *)
Lemma sub_word_run_match c u l rest :
  is_dot c = true -> is_upper u = true -> is_lower l = true ->
  sub_word_run false (String c (String u (String l rest))) =
  String c (String underscore (String u (String l
    (take_while is_lower rest
     ++ sub_word_run false (drop_while is_lower rest))%string))).
Proof.
  intros Hc Hu Hl. rewrite sub_word_run_cons. cbn [andb].
  now rewrite Hc, Hu, Hl, sub_word_run_in_run.
Qed.

(** No match at the head: the character is copied and the scan goes on
    with the next. *)
Lemma sub_word_run_no_match c rest :
  is_dot c && head_is is_upper rest && head_is is_lower (drop_first rest)
  = false ->
  sub_word_run false (String c rest) = String c (sub_word_run false rest).
Proof.
  intros H. rewrite sub_word_run_cons. cbn [andb].
  destruct rest as [ | u [ | l rest' ] ]; try reflexivity.
  cbn [head_is drop_first] in H. now rewrite H.
Qed.

Example convert_camel : convert_to_snake_case "fooBar" = "foo_bar".
Proof. reflexivity. Qed.

Example convert_acronym :
  convert_to_snake_case "getHTTPResponse" = "get_http_response".
Proof. reflexivity. Qed.

Example convert_after_underscore : convert_to_snake_case "a_Bc" = "a__bc".
Proof. reflexivity. Qed.

Example convert_adjacent_words : convert_to_snake_case "ABcDe" = "a_bc_de".
Proof. reflexivity. Qed.

Example convert_after_line_feed :
  convert_to_snake_case (String (ascii_of_N 10) "Ab") =
  String (ascii_of_N 10) "ab".
Proof. reflexivity. Qed.

(** ** The two substitutions together insert what the rule says *)

Lemma sub_word_run_head p b s :
  head_is p (sub_word_run b s) = head_is p s.
Proof.
  destruct s as [ | c rest ]; [ reflexivity | ].
  rewrite sub_word_run_cons.
  destruct (b && is_lower c); [ reflexivity | ].
  destruct rest as [ | u [ | l rest' ] ]; try reflexivity.
  destruct (is_dot c && is_upper u && is_lower l); reflexivity.
Qed.

(** [sub_hump], one character at a time. *)
Lemma sub_hump_step c s :
  sub_hump (String c s) =
  String c (if is_lower_or_digit c && head_is is_upper s
            then String underscore (sub_hump s)
            else sub_hump s).
Proof.
  destruct s as [ | u rest ];
    [ now destruct (is_lower_or_digit c) | ].
  rewrite sub_hump_pair. cbn [head_is].
  destruct (is_lower_or_digit c && is_upper u) eqn:E; [ | reflexivity ].
  apply andb_true_iff in E as [_ Hu].
  do 2 f_equal.
  destruct rest as [ | x rest' ]; [ reflexivity | ].
  rewrite sub_hump_pair, (upper_not_lower_or_digit u Hu). reflexivity.
Qed.





(** ** Dictionaries *)

Section DictFacts.

Context {A : Type}.
Implicit Types (d : dict A) (k : string) (v : A).

Lemma dict_get_In k d v : dict_get k d = Some v -> In (k, v) d.
Proof.
  induction d as [ | [k' v'] d IH ]; cbn; [ discriminate | ].
  destruct (String.eqb k' k) eqn:E.
  - apply String.eqb_eq in E as ->. intros [= ->]. now left.
  - intros H. right. now apply IH.
Qed.

Lemma dict_get_None k d : dict_get k d = None <-> ~ In k (keys d).
Proof.
  induction d as [ | [k' v'] d IH ]; cbn.
  - split; [ tauto | reflexivity ].
  - destruct (String.eqb k' k) eqn:E.
    + apply String.eqb_eq in E. split; [ discriminate | tauto ].
    + apply String.eqb_neq in E. rewrite IH. tauto.
Qed.

Lemma dict_mem_In k d : dict_mem k d = true <-> In k (keys d).
Proof.
  unfold dict_mem. destruct (dict_get k d) eqn:E.
  - split; [ intros _ | reflexivity ].
    apply dict_get_In in E. now apply (in_map fst) in E.
  - split; [ discriminate | ]. intros H. now apply dict_get_None in E.
Qed.

Lemma dict_get_unique k d v :
  NoDup (keys d) -> In (k, v) d -> dict_get k d = Some v.
Proof.
  induction d as [ | [k' v'] d IH ]; cbn; [ tauto | ].
  intros Hnd Hin. inversion Hnd as [ | ? ? Hnotin Hnd' ]; subst.
  destruct Hin as [ [= -> ->] | Hin ].
  - now rewrite String.eqb_refl.
  - destruct (String.eqb k' k) eqn:E; [ | now apply IH ].
    apply String.eqb_eq in E as ->.
    exfalso. apply Hnotin. now apply (in_map fst) in Hin.
Qed.

Lemma dict_set_new k v d :
  ~ In k (keys d) -> dict_set k v d = d ++ [(k, v)].
Proof.
  induction d as [ | [k' v'] d IH ]; cbn; [ reflexivity | ].
  intros Hnotin. destruct (String.eqb k' k) eqn:E.
  - apply String.eqb_eq in E. tauto.
  - rewrite IH; tauto.
Qed.

Lemma dict_set_keys k v d :
  keys (dict_set k v d) = if dict_mem k d then keys d else keys d ++ [k].
Proof.
  induction d as [ | [k' v'] d IH ]; [ reflexivity | ].
  unfold dict_mem, keys in *. cbn.
  destruct (String.eqb k' k) eqn:E; [ reflexivity | ].
  cbn. rewrite IH. now destruct (dict_get k d).
Qed.

Lemma dict_set_In k v d k' v' :
  In (k', v') (dict_set k v d) -> (k' = k /\ v' = v) \/ In (k', v') d.
Proof.
  induction d as [ | [k0 v0] d IH ]; cbn.
  - intros [ [= <- <-] | [] ]. now left.
  - destruct (String.eqb k0 k) eqn:E.
    + apply String.eqb_eq in E as ->.
      intros [ [= <- <-] | H ]; [ now left | right; now right ].
    + intros [ H | H ]; [ right; now left | ].
      destruct (IH H) as [ ? | ? ]; [ now left | right; now right ].
Qed.

Lemma dict_set_NoDup k v d : NoDup (keys d) -> NoDup (keys (dict_set k v d)).
Proof.
  intros Hnd. rewrite dict_set_keys.
  destruct (dict_mem k d) eqn:E; [ assumption | ].
  assert (Hnotin : ~ In k (keys d)).
  { intros H. apply dict_mem_In in H. congruence. }
  apply NoDup_app; [ assumption | repeat constructor; intros [] | ].
  intros x Hx [ <- | [] ]. contradiction.
Qed.

Lemma dict_mem_set_same k v d : dict_mem k (dict_set k v d) = true.
Proof.
  apply dict_mem_In. rewrite dict_set_keys.
  destruct (dict_mem k d) eqn:E.
  - now apply dict_mem_In.
  - apply in_or_app. right. now left.
Qed.

Lemma dict_mem_set_keeps k v d k' :
  dict_mem k' d = true -> dict_mem k' (dict_set k v d) = true.
Proof.
  intros H. apply dict_mem_In. apply dict_mem_In in H.
  rewrite dict_set_keys. destruct (dict_mem k d); [ assumption | ].
  apply in_or_app. now left.
Qed.

End DictFacts.

Lemma distinct_NoDup l : distinct l = true <-> NoDup l.
Proof.
  induction l as [ | k l IH ]; cbn.
  - split; [ constructor | reflexivity ].
  - rewrite andb_true_iff, negb_true_iff, IH. split.
    + intros [Hex Hnd]. constructor; [ | assumption ].
      intros Hin. assert (existsb (String.eqb k) l = true); [ | congruence ].
      apply existsb_exists. exists k. split; [ assumption | ].
      apply String.eqb_refl.
    + intros Hnd. inversion Hnd as [ | ? ? Hnotin Hnd' ]; subst.
      split; [ | assumption ].
      destruct (existsb (String.eqb k) l) eqn:E; [ | reflexivity ].
      apply existsb_exists in E as (x & Hx & Heq).
      apply String.eqb_eq in Heq as <-. contradiction.
Qed.

(** ** Names *)

Lemma mapped_names_have_upper :
  forallb (fun k => negb (no_upper k)) (keys field_mappings) = true.
Proof. vm_compute. reflexivity. Qed.

Lemma canonical_names_resolved :
  forallb (fun c => String.eqb (resolve_name c) c && is_snake_case c)
          (values field_mappings) = true.
Proof. vm_compute. reflexivity. Qed.

Lemma unmapped_if_no_upper s :
  no_upper s = true -> dict_get s field_mappings = None.
Proof.
  intros H. apply dict_get_None. intros Hin.
  pose proof mapped_names_have_upper as Hall.
  rewrite forallb_forall in Hall. apply Hall in Hin.
  rewrite H in Hin. discriminate.
Qed.

Lemma canonical_fixed k c :
  dict_get k field_mappings = Some c ->
  resolve_name c = c /\ is_snake_case c = true.
Proof.
  intros H. apply dict_get_In in H. apply (in_map snd) in H.
  pose proof canonical_names_resolved as Hall.
  rewrite forallb_forall in Hall. apply Hall in H.
  apply andb_true_iff in H as [H1 H2]. now apply String.eqb_eq in H1.
Qed.

Lemma resolve_name_idem s : resolve_name (resolve_name s) = resolve_name s.
Proof.
  unfold resolve_name at 2 3. destruct (dict_get s field_mappings) eqn:E.
  - now apply canonical_fixed in E.
  - unfold resolve_name.
    rewrite unmapped_if_no_upper by apply convert_no_upper.
    apply convert_idem.
Qed.

Lemma new_key_of_idem k : new_key_of (new_key_of k) = new_key_of k.
Proof.
  unfold new_key_of at 2 3. destruct (starts_with_sigil k) eqn:E.
  - unfold new_key_of. now rewrite E.
  - unfold new_key_of. rewrite resolve_name_idem.
    now destruct (starts_with_sigil (resolve_name k)).
Qed.

Lemma new_key_of_sigil k : starts_with_sigil k = true -> new_key_of k = k.
Proof. unfold new_key_of. now intros ->. Qed.

Lemma resolve_name_no_upper s : no_upper (resolve_name s) = true.
Proof.
  unfold resolve_name. destruct (dict_get s field_mappings) eqn:E.
  - apply canonical_fixed in E as [_ H].
    apply (all_chars_impl is_snake_char); [ | exact H ].
    intros c Hc. now rewrite snake_char_not_upper.
  - apply convert_no_upper.
Qed.

Lemma resolve_name_identifier s :
  is_identifier s = true -> is_snake_case (resolve_name s) = true.
Proof.
  intros H. unfold resolve_name. destruct (dict_get s field_mappings) eqn:E.
  - now apply canonical_fixed in E.
  - now apply convert_identifier.
Qed.

(** ** [fix_fields] *)

(** [fix_fields] on a dict, in the form of the source: every item stores
    [fix_fields] of its value, a field reference being rewritten first. *)
Lemma fix_fields_dict d : fix_fields (JDict d) = JDict (fix_items d []).
Proof.
  cbn [fix_fields]. f_equal. unfold fix_items.
  generalize (@nil (string * json)) as acc.
  induction d as [ | [k v] d IH ]; intros acc; cbn [fold_left];
    [ reflexivity | ].
  rewrite IH. do 2 f_equal. cbn [fst snd]. unfold fix_value.
  destruct v as [ | b | n | f | s | items | e ]; try reflexivity.
  unfold fix_reference. now destruct (starts_with_sigil s).
Qed.

Lemma fix_fields_list items :
  fix_fields (JList items) = JList (map fix_fields items).
Proof. reflexivity. Qed.

Lemma fix_items_cons k v d acc :
  fix_items ((k, v) :: d) acc =
  fix_items d (dict_set (new_key_of k) (fix_value v) acc).
Proof. reflexivity. Qed.

(** A field reference that is the value of a key. *)
Lemma fix_value_reference s :
  starts_with_sigil s = true ->
  fix_value (JStr s) = JStr (String sigil (resolve_name (drop_first s))).
Proof. intros H. unfold fix_value, fix_reference. now rewrite H. Qed.

Lemma fix_value_other v :
  (forall s, v = JStr s -> starts_with_sigil s = false) ->
  fix_value v = fix_fields v.
Proof.
  intros H. unfold fix_value. destruct v; try reflexivity.
  unfold fix_reference. now rewrite (H s eq_refl).
Qed.

(** Every entry of the result of the loop was there before or comes from
    an item. *)
Lemma fix_items_In d : forall acc k' v',
  In (k', v') (fix_items d acc) ->
  In (k', v') acc \/
  exists k v, In (k, v) d /\ k' = new_key_of k /\ v' = fix_value v.
Proof.
  induction d as [ | [k v] d IH ]; intros acc k' v' H; [ now left | ].
  rewrite fix_items_cons in H. apply IH in H as [ H | (k0 & v0 & H & ?) ].
  - apply dict_set_In in H as [ [-> ->] | H ]; [ right | now left ].
    exists k, v. repeat split. now left.
  - right. exists k0, v0. split; [ now right | assumption ].
Qed.

Lemma fix_items_NoDup d : forall acc,
  NoDup (keys acc) -> NoDup (keys (fix_items d acc)).
Proof.
  induction d as [ | [k v] d IH ]; intros acc H; [ assumption | ].
  rewrite fix_items_cons. apply IH. now apply dict_set_NoDup.
Qed.

Lemma fix_items_mem_keeps d : forall acc k,
  dict_mem k acc = true -> dict_mem k (fix_items d acc) = true.
Proof.
  induction d as [ | [k0 v0] d IH ]; intros acc k H; [ assumption | ].
  rewrite fix_items_cons. apply IH. now apply dict_mem_set_keeps.
Qed.

(** The new name of every key of the input is a key of the result. *)
Lemma fix_items_mem d : forall acc k,
  In k (keys d) -> dict_mem (new_key_of k) (fix_items d acc) = true.
Proof.
  induction d as [ | [k0 v0] d IH ]; intros acc k H; [ destruct H | ].
  rewrite fix_items_cons. destruct H as [ H | H ].
  - cbn in H. subst k0. apply fix_items_mem_keeps, dict_mem_set_same.
  - now apply IH.
Qed.

(** Without two keys of the same new name the loop is a map over the
    items. *)
Lemma fix_items_distinct d : forall acc,
  NoDup (keys acc ++ map new_key_of (keys d)) ->
  fix_items d acc = acc ++ map fix_item d.
Proof.
  induction d as [ | [k v] d IH ]; intros acc H.
  - cbn. now rewrite app_nil_r.
  - rewrite fix_items_cons.
    assert (Hnew : ~ In (new_key_of k) (keys acc)).
    { cbn in H. apply NoDup_remove_2 in H. intros Hin. apply H.
      apply in_or_app. now left. }
    rewrite (dict_set_new _ _ _ Hnew). rewrite IH.
    + rewrite <- app_assoc. reflexivity.
    + unfold keys in *. rewrite map_app, <- app_assoc. exact H.
Qed.

Section DictSetGet.

Context {A : Type}.

Lemma dict_get_set_same (k : string) (v : A) d :
  dict_get k (dict_set k v d) = Some v.
Proof.
  induction d as [ | [k' v'] d IH ]; cbn.
  - now rewrite String.eqb_refl.
  - destruct (String.eqb k' k) eqn:E; cbn; rewrite E; [ reflexivity | exact IH ].
Qed.

Lemma dict_get_set_other (k k0 : string) (v : A) d :
  k <> k0 -> dict_get k0 (dict_set k v d) = dict_get k0 d.
Proof.
  intros Hne. induction d as [ | [k' v'] d IH ]; cbn.
  - apply String.eqb_neq in Hne. now rewrite Hne.
  - destruct (String.eqb k' k) eqn:E; cbn.
    + apply String.eqb_eq in E as ->.
      apply String.eqb_neq in Hne. now rewrite Hne.
    + now rewrite IH.
Qed.

End DictSetGet.

Lemma fix_items_app d1 d2 acc :
  fix_items (d1 ++ d2) acc = fix_items d2 (fix_items d1 acc).
Proof. unfold fix_items. apply fold_left_app. Qed.

Lemma fix_items_get_other d x : forall acc,
  (forall k, In k (keys d) -> new_key_of k <> x) ->
  dict_get x (fix_items d acc) = dict_get x acc.
Proof.
  induction d as [ | [k v] d IH ]; intros acc H; [ reflexivity | ].
  rewrite fix_items_cons, IH.
  - apply dict_get_set_other. apply H. now left.
  - intros k' Hk'. apply H. now right.
Qed.

(* ================================================================== *)
(** * The claims *)

(** ** Shape correction *)

(** C1.  [validate_and_fix_query] applies five rules, the first that fits
    wins: a list becomes the pipeline of an aggregate query; a dict with
    one of the keys "$match", "$group", "$sort" becomes the only stage of
    a pipeline, whatever other keys it has ("aggregate" and "pipeline"
    included); a dict with both "aggregate" and "pipeline" is returned as
    it is; so is any other dict; a string, number, boolean or null is
    refused with the error "Query format not recognized". *)
Theorem validate_and_fix_query_rules :
  (forall items,
      validate_and_fix_query (JList items) =
      Ok (JDict [("aggregate", JBool true); ("pipeline", JList items)]))
  /\ (forall d,
         dict_mem "$match" d = true \/ dict_mem "$group" d = true
         \/ dict_mem "$sort" d = true ->
         validate_and_fix_query (JDict d) =
         Ok (JDict [("aggregate", JBool true); ("pipeline", JList [JDict d])]))
  /\ (forall d,
         dict_mem "$match" d = false -> dict_mem "$group" d = false ->
         dict_mem "$sort" d = false ->
         dict_mem "aggregate" d = true -> dict_mem "pipeline" d = true ->
         validate_and_fix_query (JDict d) = Ok (JDict d))
  /\ (forall d,
         dict_mem "$match" d = false -> dict_mem "$group" d = false ->
         dict_mem "$sort" d = false ->
         validate_and_fix_query (JDict d) = Ok (JDict d))
  /\ (forall q,
         isinstance_list q = false -> isinstance_dict q = false ->
         validate_and_fix_query q = Raise query_format_not_recognized
         /\ generate_query q = Raise InvalidQueryFormat).
Proof.
  split; [ reflexivity | ].
  split.
  { intros d H. unfold validate_and_fix_query, wrap_pipeline.
    destruct (dict_mem "$match" d), (dict_mem "$group" d),
      (dict_mem "$sort" d); try reflexivity.
    destruct H as [ H | [ H | H ] ]; discriminate H. }
  split.
  { intros d H1 H2 H3 H4 H5. unfold validate_and_fix_query.
    now rewrite H1, H2, H3, H4, H5. }
  split.
  { intros d H1 H2 H3. unfold validate_and_fix_query.
    rewrite H1, H2, H3. cbn [orb]. now destruct (_ && _). }
  intros q Hl Hd.
  destruct q; try (split; reflexivity); discriminate.
Qed.

Lemma validate_and_fix_query_rules_witness :
  validate_and_fix_query
    (JDict [("$sort", JDict [("total", JInt 1)]);
            ("aggregate", JBool true); ("pipeline", JList [])]) =
  Ok (JDict [("aggregate", JBool true);
             ("pipeline",
              JList [JDict [("$sort", JDict [("total", JInt 1)]);
                            ("aggregate", JBool true);
                            ("pipeline", JList [])]])])
  /\ validate_and_fix_query
       (JDict [("aggregate", JBool true); ("pipeline", JList [])]) =
     Ok (JDict [("aggregate", JBool true); ("pipeline", JList [])])
  /\ validate_and_fix_query (JDict [("departmentName", JStr "Water")]) =
     Ok (JDict [("departmentName", JStr "Water")])
  /\ validate_and_fix_query (JStr "just a string") =
     Raise query_format_not_recognized.
Proof.
  destruct validate_and_fix_query_rules as (_ & Hstage & Hboth & Hfind & Hno).
  split; [ | split; [ | split ] ].
  - apply Hstage. right. right. reflexivity.
  - apply Hboth; reflexivity.
  - apply Hfind; reflexivity.
  - apply Hno; reflexivity.
Defined.

(** ** Shape validation *)

(** C3.  [is_valid_query_structure] is false for what is not a dict; for
    a dict with the key "aggregate" it is true exactly when the value of
    "aggregate" is a boolean and the dict has the key "pipeline" with a
    list as value; for a dict without the key "aggregate" it is true. *)
Theorem is_valid_query_structure_spec :
  (forall q, isinstance_dict q = false -> is_valid_query_structure q = false)
  /\ (forall d,
         dict_mem "aggregate" d = true ->
         (is_valid_query_structure (JDict d) = true <->
          (exists b, dict_get "aggregate" d = Some (JBool b))
          /\ dict_mem "pipeline" d = true
          /\ exists items, dict_get "pipeline" d = Some (JList items)))
  /\ (forall d,
         dict_mem "aggregate" d = false ->
         is_valid_query_structure (JDict d) = true).
Proof.
  split.
  { intros q Hq. destruct q; try reflexivity; discriminate. }
  split.
  { intros d Hagg. unfold is_valid_query_structure, item_is.
    rewrite Hagg. split.
    - intros H. apply andb_true_iff in H as [H Hlist].
      apply andb_true_iff in H as [Hbool Hmem].
      repeat split; [ | assumption | ].
      + destruct (dict_get "aggregate" d) as [ [ | b | | | | | ] | ];
          try discriminate. now exists b.
      + destruct (dict_get "pipeline" d) as [ [ | | | | | items | ] | ];
          try discriminate. now exists items.
    - intros ((b & Hb) & Hp & (items & Hitems)).
      now rewrite Hb, Hp, Hitems. }
  intros d H. unfold is_valid_query_structure. now rewrite H.
Qed.

Lemma is_valid_query_structure_spec_witness :
  is_valid_query_structure (JInt 3) = false
  /\ is_valid_query_structure
       (JDict [("aggregate", JBool true); ("pipeline", JList [])]) = true
  /\ is_valid_query_structure (JDict [("department_name", JStr "Water")])
     = true.
Proof.
  destruct is_valid_query_structure_spec as (Hno & Hagg & Hfind).
  split; [ | split ].
  - apply Hno. reflexivity.
  - apply Hagg; [ reflexivity | ].
    split; [ exists true; reflexivity | ].
    split; [ reflexivity | exists []; reflexivity ].
  - apply Hfind. reflexivity.
Defined.

(** ** The composite entry point *)

Lemma generate_query_cases q :
  generate_query q =
  match validate_and_fix_query q with
  | Ok fixed =>
      if is_valid_query_structure (normalize_field_names fixed)
      then Ok (normalize_field_names fixed)
      else Raise InvalidQueryStructure
  | Raise e =>
      Raise (Exception ("Error generating query: " ++ exn_str e)%string)
  end.
Proof.
  unfold generate_query, try_except, bind.
  destruct (validate_and_fix_query q) as [ fixed | e ]; [ | reflexivity ].
  now destruct (is_valid_query_structure (normalize_field_names fixed)).
Qed.

Lemma validate_and_fix_query_error q e :
  validate_and_fix_query q = Raise e -> e = query_format_not_recognized.
Proof.
  destruct q; cbn; try (now intros [= <-]); try discriminate.
  destruct (_ || _); [ discriminate | ]. destruct (_ && _); discriminate.
Qed.

(** C2.  [generate_query] fails with "Invalid query structure after
    fixes" exactly when the query, after [validate_and_fix_query] and
    [normalize_field_names], does not pass [is_valid_query_structure];
    [{"aggregate": "yes", "pipeline": []}] is returned unchanged by the
    shape correction and fails in this way. *)
Theorem generate_query_invalid_structure :
  (forall q,
      generate_query q = Raise InvalidQueryStructure <->
      exists fixed,
        validate_and_fix_query q = Ok fixed
        /\ is_valid_query_structure (normalize_field_names fixed) = false)
  /\ (let q := JDict [("aggregate", JStr "yes"); ("pipeline", JList [])] in
      validate_and_fix_query q = Ok q
      /\ is_valid_query_structure (normalize_field_names q) = false
      /\ generate_query q = Raise InvalidQueryStructure).
Proof.
  split; [ | repeat split ].
  intros q. rewrite generate_query_cases. split.
  - destruct (validate_and_fix_query q) as [ fixed | e ] eqn:E.
    + destruct (is_valid_query_structure _) eqn:V; [ discriminate | ].
      intros _. now exists fixed.
    + apply validate_and_fix_query_error in E as ->. discriminate.
  - intros (fixed & -> & ->). reflexivity.
Qed.

Lemma generate_query_invalid_structure_witness :
  generate_query (JDict [("aggregate", JInt 1); ("pipeline", JList [])]) =
  Raise InvalidQueryStructure.
Proof.
  apply (proj1 generate_query_invalid_structure).
  exists (JDict [("aggregate", JInt 1); ("pipeline", JList [])]).
  split; reflexivity.
Defined.

(** C5, as the code has it.  A dict with one of the three keys "$match",
    "$group", "$sort" becomes the only stage of a pipeline; a dict with
    none of the three is returned as it is, whatever other operator keys
    it has. *)
Theorem three_stage_keys_wrap d :
  (dict_mem "$match" d = true \/ dict_mem "$group" d = true
   \/ dict_mem "$sort" d = true ->
   validate_and_fix_query (JDict d) =
   Ok (JDict [("aggregate", JBool true); ("pipeline", JList [JDict d])]))
  /\ (dict_mem "$match" d = false /\ dict_mem "$group" d = false
      /\ dict_mem "$sort" d = false ->
      validate_and_fix_query (JDict d) = Ok (JDict d)).
Proof.
  unfold validate_and_fix_query, wrap_pipeline. split.
  - intros H.
    destruct (dict_mem "$match" d), (dict_mem "$group" d),
      (dict_mem "$sort" d); try reflexivity.
    destruct H as [ H | [ H | H ] ]; discriminate H.
  - intros (-> & -> & ->). cbn [orb]. now destruct (_ && _).
Qed.

Lemma three_stage_keys_wrap_witness :
  validate_and_fix_query
    (JDict [("$group", JDict [("_id", JStr "$departmentName")])]) =
  Ok (JDict [("aggregate", JBool true);
             ("pipeline",
              JList [JDict [("$group",
                             JDict [("_id", JStr "$departmentName")])]])])
  /\ validate_and_fix_query (JDict [("$limit", JInt 5)]) =
     Ok (JDict [("$limit", JInt 5)]).
Proof.
  split.
  - apply (proj1 (three_stage_keys_wrap _)). right. left. reflexivity.
  - apply (proj2 (three_stage_keys_wrap _)). repeat split.
Defined.

(** C5 fails on a dict whose only key is "$project": it comes back as it
    is, not as the stage of a pipeline. *)
Lemma project_stage_not_wrapped :
  let q := JDict [("$project", JDict [("item_name", JInt 1)])] in
  validate_and_fix_query q = Ok q
  /\ validate_and_fix_query q <>
     Ok (JDict [("aggregate", JBool true); ("pipeline", JList [q])]).
Proof. split; [ reflexivity | discriminate ]. Qed.

(** ** Field references *)

(** C4 at its failing input.  A field reference is rewritten where it is
    the value of a key, and left as it is where it is the element of a
    list: [{"total": "$unitPrice"}] becomes [{"total": "$unit_price"}],
    but [{"total": {"$multiply": ["$unitPrice", "$quantity"]}}] and
    [["$fooBar"]] come back unchanged, as does every list of strings. *)
Theorem reference_in_list_not_renamed :
  normalize_field_names (JDict [("total", JStr "$unitPrice")]) =
  JDict [("total", JStr "$unit_price")]
  /\ normalize_field_names (JDict [("ref", JStr "$fooBar")]) =
     JDict [("ref", JStr "$foo_bar")]
  /\ normalize_field_names
       (JDict [("total",
                JDict [("$multiply",
                        JList [JStr "$unitPrice"; JStr "$quantity"])])]) =
     JDict [("total",
             JDict [("$multiply",
                     JList [JStr "$unitPrice"; JStr "$quantity"])])]
  /\ normalize_field_names (JList [JStr "$fooBar"]) = JList [JStr "$fooBar"]
  /\ forall names,
       normalize_field_names (JList (map JStr names)) =
       JList (map JStr names).
Proof.
  repeat split.
  intros names. unfold normalize_field_names. rewrite fix_fields_list.
  f_equal. rewrite map_map. now apply map_ext.
Qed.

(** ** Resolution of a key *)



(** ** Two keys with one new name *)

(** C10.  When two keys of a dict get the same new name the result has
    one entry under that name, with the value of the key that comes
    later; the value of the other is lost and the result has fewer
    entries than the input.  So it is for "departmentName" and
    "department_name", in either order. *)
Theorem later_key_wins :
  (forall k1 v1 k2 v2,
      new_key_of k1 = new_key_of k2 ->
      normalize_field_names (JDict [(k1, v1); (k2, v2)]) =
      JDict [(new_key_of k1, fix_value v2)])
  /\ normalize_field_names
       (JDict [("departmentName", JStr "Water");
               ("department_name", JStr "Parks")]) =
     JDict [("department_name", JStr "Parks")]
  /\ normalize_field_names
       (JDict [("department_name", JStr "Parks");
               ("departmentName", JStr "Water")]) =
     JDict [("department_name", JStr "Water")].
Proof.
  split; [ | split; reflexivity ].
  intros k1 v1 k2 v2 Hsame. unfold normalize_field_names.
  rewrite fix_fields_dict. f_equal.
  rewrite !fix_items_cons. rewrite <- Hsame.
  cbn. now rewrite String.eqb_refl.
Qed.

Lemma later_key_wins_witness :
  normalize_field_names
    (JDict [("unitPrice", JInt 3); ("unit_price", JInt 4)]) =
  JDict [("unit_price", JInt 4)].
Proof.
  apply (proj1 later_key_wins "unitPrice" (JInt 3) "unit_price" (JInt 4)).
  reflexivity.
Defined.

(** ** The keys of the result *)

Lemma all_keys_fix_value ok v :
  all_keys ok (fix_fields v) = true -> all_keys ok (fix_value v) = true.
Proof.
  destruct v; try (intros H; exact H).
  intros _. unfold fix_value, fix_reference.
  now destruct (starts_with_sigil s).
Qed.

(** A property of keys that the renaming establishes holds of every key
    of the result. *)
Lemma all_keys_fix_fields (ok_in ok_out : string -> bool) :
  (forall k, ok_in k = true -> ok_out (new_key_of k) = true) ->
  forall t, all_keys ok_in t = true -> all_keys ok_out (fix_fields t) = true.
Proof.
  intros Hkey. induction t as [ | | | | | items IH | d IH ] using json_ind;
    intros Hin; try reflexivity.
  - rewrite fix_fields_list. cbn [all_keys] in *.
    rewrite forallb_forall in *. rewrite Forall_forall in IH.
    intros x Hx. apply in_map_iff in Hx as (y & <- & Hy). auto.
  - rewrite fix_fields_dict. cbn [all_keys] in *.
    rewrite forallb_forall in *. rewrite Forall_forall in IH.
    intros [k' v'] Hitem. cbn [fst snd].
    apply fix_items_In in Hitem as [ [] | (k & v & Hkv & -> & ->) ].
    specialize (Hin _ Hkv). cbn [fst snd] in Hin.
    apply andb_true_iff in Hin as [Hk Hv].
    apply andb_true_iff. split; [ now apply Hkey | ].
    apply all_keys_fix_value. now apply (IH _ Hkv).
Qed.

Lemma all_keys_trivial t : all_keys (fun _ => true) t = true.
Proof.
  induction t as [ | | | | | items IH | d IH ] using json_ind;
    try reflexivity; cbn [all_keys]; rewrite forallb_forall;
    rewrite Forall_forall in IH.
  - exact IH.
  - intros item Hitem. now apply IH.
Qed.

(** C6, as the code has it.  In the result of [normalize_field_names] no
    key that does not begin with "$" has an uppercase letter A-Z; and
    when the keys of the input that do not begin with "$" are written
    with letters, digits and underscores only, those of the result are
    written with lowercase letters, digits and underscores only. *)
Theorem keys_after_normalization t :
  all_keys (plain_key_ok no_upper) (normalize_field_names t) = true
  /\ (all_keys (plain_key_ok is_identifier) t = true ->
      all_keys (plain_key_ok is_snake_case) (normalize_field_names t) = true).
Proof.
  unfold normalize_field_names. split.
  - apply (all_keys_fix_fields (fun _ => true)); [ | apply all_keys_trivial ].
    intros k _. unfold plain_key_ok, new_key_of.
    destruct (starts_with_sigil k) eqn:E; [ now rewrite E | ].
    rewrite resolve_name_no_upper. apply orb_true_r.
  - apply all_keys_fix_fields.
    intros k Hk. unfold plain_key_ok, new_key_of in *.
    destruct (starts_with_sigil k) eqn:E; [ now rewrite E | ].
    cbn [orb] in Hk. rewrite (resolve_name_identifier k Hk).
    apply orb_true_r.
Qed.

Lemma keys_after_normalization_witness :
  all_keys (plain_key_ok is_snake_case)
    (normalize_field_names
       (JDict [("$match",
                JDict [("fiscalYear", JStr "2023");
                       ("vendorID2", JDict [("$gt", JInt 10)])])])) = true.
Proof.
  apply (proj2 (keys_after_normalization _)). reflexivity.
Defined.

(** C6 fails on the key "foo-bar": it is kept as it is, and the hyphen
    is no character of a snake_case name. *)
Lemma hyphen_key_not_snake_case :
  normalize_field_names (JDict [("foo-bar", JInt 1)]) =
  JDict [("foo-bar", JInt 1)]
  /\ all_keys (plain_key_ok is_snake_case)
       (normalize_field_names (JDict [("foo-bar", JInt 1)])) = false.
Proof. split; reflexivity. Qed.

(** ** Idempotence *)

Lemma fix_value_idem v :
  fix_fields (fix_fields v) = fix_fields v ->
  fix_value (fix_value v) = fix_value v.
Proof.
  intros IH. destruct v as [ | b | n | f | s | items | d ];
    try reflexivity.
  - destruct (starts_with_sigil s) eqn:E.
    + rewrite (fix_value_reference s E).
      rewrite fix_value_reference by reflexivity.
      cbn [drop_first]. now rewrite resolve_name_idem.
    + assert (H : fix_value (JStr s) = JStr s).
      { unfold fix_value, fix_reference. now rewrite E. }
      now rewrite !H.
  - unfold fix_value. cbn [fix_reference]. rewrite fix_fields_list in *.
    exact IH.
  - unfold fix_value. cbn [fix_reference]. rewrite fix_fields_dict in *.
    exact IH.
Qed.

(** The loop run on its own result changes nothing. *)
Lemma fix_items_idem d :
  Forall (fun item => fix_fields (fix_fields (snd item)) = fix_fields (snd item))
         d ->
  fix_items (fix_items d []) [] = fix_items d [].
Proof.
  intros IH. rewrite Forall_forall in IH.
  set (e := fix_items d []).
  assert (Hfixed : forall item, In item e -> fix_item item = item).
  { intros [k' v'] Hitem.
    apply fix_items_In in Hitem as [ [] | (k & v & Hkv & -> & ->) ].
    unfold fix_item. cbn [fst snd].
    rewrite new_key_of_idem, fix_value_idem; [ reflexivity | ].
    apply (IH _ Hkv). }
  assert (Hmap : map fix_item e = e).
  { rewrite <- (map_id e) at 2. now apply map_ext_in. }
  rewrite fix_items_distinct; [ exact Hmap | ].
  cbn [keys map app].
  replace (map new_key_of (keys e)) with (keys (map fix_item e))
    by (unfold keys; rewrite !map_map; reflexivity).
  rewrite Hmap. apply fix_items_NoDup. constructor.
Qed.

(** C7.  [normalize_field_names] is idempotent: a second pass leaves the
    result of the first as it is. *)
Theorem normalize_field_names_idempotent t :
  normalize_field_names (normalize_field_names t) = normalize_field_names t.
Proof.
  unfold normalize_field_names.
  induction t as [ | | | | | items IH | d IH ] using json_ind;
    try reflexivity.
  - rewrite !fix_fields_list. f_equal. rewrite map_map.
    apply map_ext_in. now apply Forall_forall.
  - rewrite !fix_fields_dict. f_equal. now apply fix_items_idem.
Qed.

(** ** Operator keys *)

Lemma fix_value_on_the_way v p d :
  get_path v p = Some (JDict d) -> fix_value v = fix_fields v.
Proof.
  intros H. apply fix_value_other. intros s ->.
  destruct p as [ | [ k | i ] p ]; discriminate H.
Qed.

Lemma dict_get_split k d v :
  dict_get k d = Some v ->
  exists before, d = before ++ (k, v) :: items_after k d.
Proof.
  induction d as [ | [k' v'] d IH ]; cbn; [ discriminate | ].
  destruct (String.eqb k' k) eqn:E.
  - apply String.eqb_eq in E as ->. intros [= ->]. now exists [].
  - intros H. destruct (IH H) as (before & Hd).
    exists ((k', v') :: before). cbn. now rewrite <- Hd.
Qed.

(** The value of a key is found, processed, under its new name when no
    later key gets that name. *)
Lemma fix_items_get_kept k d v :
  dict_get k d = Some v ->
  not_renamed_later k d = true ->
  dict_get (new_key_of k) (fix_items d []) = Some (fix_value v).
Proof.
  intros Hget Hlater. destruct (dict_get_split k d v Hget) as (before & Hd).
  rewrite Hd at 1. rewrite fix_items_app, fix_items_cons.
  rewrite fix_items_get_other; [ apply dict_get_set_same | ].
  intros k' Hk'. unfold not_renamed_later in Hlater.
  rewrite forallb_forall in Hlater.
  apply in_map_iff in Hk' as (item & <- & Hitem).
  specialize (Hlater _ Hitem). apply negb_true_iff in Hlater.
  now apply String.eqb_neq.
Qed.

(** Where no later key takes the new name of a key on the way, a map of
    the input is found in the result at the renamed position. *)
Lemma get_path_fix_fields p : forall t d,
  kept_along t p = true ->
  get_path t p = Some (JDict d) ->
  get_path (fix_fields t) (rename_path p) = Some (JDict (fix_items d [])).
Proof.
  induction p as [ | [ k | i ] p IH ]; intros t d Hkept Hget.
  - cbn in *. apply (f_equal (fun o => match o with Some x => x | None => t end))
      in Hget. cbn in Hget. subst t. now rewrite fix_fields_dict.
  - destruct t as [ | | | | | | e ]; try discriminate Hget.
    cbn [get_path kept_along] in *.
    destruct (dict_get k e) as [ v | ] eqn:Ek; [ | discriminate Hget ].
    apply andb_true_iff in Hkept as [Hlater Hkept].
    rewrite fix_fields_dict.
    cbn [rename_path map rename_step get_path].
    rewrite (fix_items_get_kept k e v Ek Hlater).
    rewrite (fix_value_on_the_way v p d Hget). now apply IH.
  - destruct t as [ | | | | | items | ]; try discriminate Hget.
    cbn [get_path kept_along] in *.
    rewrite fix_fields_list.
    cbn [rename_path map rename_step get_path].
    rewrite nth_error_map.
    destruct (nth_error items i) as [ v | ]; [ | discriminate Hget ].
    cbn [option_map]. now apply IH.
Qed.

(** C8, as the code has it.  A key that begins with "$", of a map
    anywhere in the input, is a key of the map at the same position of
    the result, provided that in no map on the way a key that comes
    after the key on the way gets the same new name.  For the map at
    the top this is always so. *)
Theorem operator_keys_preserved t p d k :
  get_path t p = Some (JDict d) ->
  kept_along t p = true ->
  dict_mem k d = true ->
  starts_with_sigil k = true ->
  exists d',
    get_path (normalize_field_names t) (rename_path p) = Some (JDict d')
    /\ dict_mem k d' = true.
Proof.
  intros Hget Hkept Hmem Hsigil. exists (fix_items d []). split.
  - now apply get_path_fix_fields.
  - rewrite <- (new_key_of_sigil k Hsigil).
    apply fix_items_mem. now apply dict_mem_In.
Qed.

Lemma operator_keys_preserved_witness :
  exists d',
    get_path
      (normalize_field_names
         (JDict [("unit_price", JInt 5);
                 ("unitPrice", JDict [("$gt", JInt 10)]);
                 ("fooBar", JInt 1); ("foo_bar", JInt 2)]))
      (rename_path [Key "unitPrice"]) = Some (JDict d')
    /\ dict_mem "$gt" d' = true.
Proof.
  apply (operator_keys_preserved
           (JDict [("unit_price", JInt 5);
                   ("unitPrice", JDict [("$gt", JInt 10)]);
                   ("fooBar", JInt 1); ("foo_bar", JInt 2)])
           [Key "unitPrice"] [("$gt", JInt 10)] "$gt");
    reflexivity.
Defined.

(** C8 fails where the map is the value of a key that shares its new
    name with a later key: in
    [{"departmentName": {"$gt": 1}, "department_name": 5}] the map with
    the key "$gt" is lost, and no map of the result has that key. *)
Lemma operator_key_lost_with_its_map :
  let t := JDict [("departmentName", JDict [("$gt", JInt 1)]);
                  ("department_name", JInt 5)] in
  get_path t [Key "departmentName"] = Some (JDict [("$gt", JInt 1)])
  /\ normalize_field_names t = JDict [("department_name", JInt 5)]
  /\ occurs_key "$gt" (normalize_field_names t) = false
  /\ ~ (exists d',
           get_path (normalize_field_names t)
                    (rename_path [Key "departmentName"]) = Some (JDict d')
           /\ dict_mem "$gt" d' = true).
Proof.
  repeat split. intros (d' & H & _). discriminate H.
Qed.

(** ** The examples of the specification *)

Example sequence_wrapping :
  generate_query
    (JList [JDict [("$match", JDict [("fiscalYear", JStr "2023")])]]) =
  Ok (JDict [("aggregate", JBool true);
             ("pipeline",
              JList [JDict [("$match",
                             JDict [("fiscal_year", JStr "2023")])]])]).
Proof. reflexivity. Qed.

Example single_stage_wrapping :
  generate_query
    (JDict [("$group",
             JDict [("_id", JStr "$departmentName");
                    ("total", JDict [("$sum", JStr "$totalPrice")])])]) =
  Ok (JDict [("aggregate", JBool true);
             ("pipeline",
              JList [JDict [("$group",
                JDict [("_id", JStr "$department_name");
                       ("total", JDict [("$sum", JStr "$total_price")])])]])]).
Proof. reflexivity. Qed.

Example pass_through_find_query :
  generate_query (JDict [("departmentName", JStr "Water Resources")]) =
  Ok (JDict [("department_name", JStr "Water Resources")]).
Proof. reflexivity. Qed.

Example non_map_rejection :
  generate_query (JStr "just a string") = Raise InvalidQueryFormat.
Proof. reflexivity. Qed.

(* ================================================================== *)
(** * Further properties of the normalisation *)

(** ** Names *)

Lemma starts_with_sigil_head s :
  starts_with_sigil s = head_is (fun c => Ascii.eqb c sigil) s.
Proof. now destruct s. Qed.

Lemma sub_hump_head p s : head_is p (sub_hump s) = head_is p s.
Proof.
  destruct s as [ | c rest ]; [ reflexivity | ].
  now rewrite sub_hump_step.
Qed.

Lemma lower_head_sigil s :
  starts_with_sigil (lower s) = starts_with_sigil s.
Proof.
  destruct s as [ | c rest ]; [ reflexivity | ]. apply lower_char_sigil.
Qed.

Lemma convert_sigil s :
  starts_with_sigil (convert_to_snake_case s) = starts_with_sigil s.
Proof.
  unfold convert_to_snake_case.
  rewrite lower_head_sigil, !starts_with_sigil_head.
  now rewrite sub_hump_head, sub_word_run_head.
Qed.

Lemma canonical_names_plain :
  forallb (fun c => negb (starts_with_sigil c)) (values field_mappings) = true.
Proof. vm_compute. reflexivity. Qed.

Lemma resolve_name_plain s :
  starts_with_sigil s = false -> starts_with_sigil (resolve_name s) = false.
Proof.
  intros H. unfold resolve_name. destruct (dict_get s field_mappings) eqn:E.
  - apply dict_get_In in E. apply (in_map snd) in E.
    pose proof canonical_names_plain as Hall.
    rewrite forallb_forall in Hall. apply Hall in E.
    now apply negb_true_iff in E.
  - now rewrite convert_sigil.
Qed.

Lemma new_key_of_kind k :
  starts_with_sigil (new_key_of k) = starts_with_sigil k.
Proof.
  unfold new_key_of. destruct (starts_with_sigil k) eqn:E.
  - exact E.
  - now apply resolve_name_plain.
Qed.

(** X1.  The renaming never turns a field name into an operator nor an
    operator into a field name: the new name of a key begins with "$"
    exactly when the key does; so a key that begins with "$" shares its
    new name with no other key. *)
Theorem new_key_keeps_kind :
  (forall k, starts_with_sigil (new_key_of k) = starts_with_sigil k)
  /\ (forall k k',
         starts_with_sigil k = true -> k' <> k ->
         new_key_of k' <> new_key_of k).
Proof.
  split; [ exact new_key_of_kind | ].
  intros k k' Hk Hne Heq. apply Hne.
  assert (Hk' : starts_with_sigil k' = true).
  { rewrite <- new_key_of_kind, Heq, new_key_of_kind. exact Hk. }
  now rewrite (new_key_of_sigil k Hk), (new_key_of_sigil k' Hk') in Heq.
Qed.

Lemma new_key_keeps_kind_witness :
  new_key_of "sort" <> new_key_of "$sort".
Proof.
  apply (proj2 new_key_keeps_kind "$sort" "sort");
    [ reflexivity | discriminate ].
Defined.

Lemma lower_of_lowercase s : is_lowercase s = true -> lower s = s.
Proof.
  unfold is_lowercase. induction s as [ | c s IH ]; [ reflexivity | ].
  cbn [all_chars lower]. intros H. split_andb.
  rewrite IH by assumption. unfold lower_char.
  now destruct (has_lowercase c).
Qed.

Lemma lowercase_no_upper s : is_lowercase s = true -> no_upper s = true.
Proof.
  apply all_chars_impl. intros c. unfold has_lowercase.
  now destruct (is_upper c).
Qed.

Lemma snake_case_lowercase s : is_snake_case s = true -> is_lowercase s = true.
Proof. apply all_chars_impl. intros c. by_cases_on_char c. Qed.

Lemma snake_case_plain s :
  is_snake_case s = true -> starts_with_sigil s = false.
Proof.
  destruct s as [ | c rest ]; [ reflexivity | ].
  cbn. intros H. split_andb. revert H. by_cases_on_char c.
Qed.

Lemma resolve_name_of_lowercase s :
  is_lowercase s = true -> resolve_name s = s.
Proof.
  intros H. pose proof (lowercase_no_upper s H) as Hno.
  unfold resolve_name. rewrite (unmapped_if_no_upper s Hno).
  rewrite (convert_of_no_upper s Hno). now apply lower_of_lowercase.
Qed.

(** X2.  A name without a letter that has a lowercase form is returned
    by [convert_to_snake_case] as it is, and a key in snake_case is its
    own new name. *)
Theorem snake_case_names_kept :
  (forall s, is_lowercase s = true -> convert_to_snake_case s = s)
  /\ (forall k, is_snake_case k = true -> new_key_of k = k).
Proof.
  split.
  - intros s H. rewrite convert_of_no_upper by now apply lowercase_no_upper.
    now apply lower_of_lowercase.
  - intros k H. unfold new_key_of. rewrite (snake_case_plain k H).
    now apply resolve_name_of_lowercase, snake_case_lowercase.
Qed.

Lemma snake_case_names_kept_witness :
  convert_to_snake_case "total-price 2" = "total-price 2"
  /\ new_key_of "purchase_order_number" = "purchase_order_number".
Proof.
  split.
  - apply (proj1 snake_case_names_kept). reflexivity.
  - apply (proj2 snake_case_names_kept). reflexivity.
Defined.

Lemma lower_length s : String.length (lower s) = String.length s.
Proof. induction s as [ | c s IH ]; cbn; [ reflexivity | now rewrite IH ]. Qed.

Lemma lower_char_underscore c :
  Ascii.eqb (lower_char c) underscore = Ascii.eqb c underscore.
Proof. by_cases_on_char c. Qed.

Lemma remove_underscores_lower s :
  remove_underscores (lower s) = lower (remove_underscores s).
Proof.
  induction s as [ | c s IH ]; [ reflexivity | ].
  cbn [lower remove_underscores]. rewrite lower_char_underscore.
  destruct (Ascii.eqb c underscore); [ exact IH | ].
  cbn [lower]. now rewrite IH.
Qed.




(** ** Trees *)

Lemma fix_item_keys d : keys (map fix_item d) = map new_key_of (keys d).
Proof. unfold keys. rewrite !map_map. reflexivity. Qed.

Lemma fix_fields_of_distinct d :
  distinct (map new_key_of (keys d)) = true ->
  fix_fields (JDict d) = JDict (map fix_item d).
Proof.
  intros H. apply distinct_NoDup in H.
  rewrite fix_fields_dict. f_equal. now apply fix_items_distinct.
Qed.

Lemma fix_items_length d : forall acc,
  List.length (fix_items d acc) <= List.length acc + List.length d.
Proof.
  induction d as [ | [k v] d IH ]; intros acc; [ cbn; lia | ].
  rewrite fix_items_cons. specialize (IH (dict_set (new_key_of k) (fix_value v) acc)).
  assert (Hset : List.length (dict_set (new_key_of k) (fix_value v) acc)
                 <= S (List.length acc)).
  { clear IH. induction acc as [ | [k' v'] acc IHacc ]; cbn; [ lia | ].
    destruct (String.eqb k' (new_key_of k)); cbn; lia. }
  cbn [List.length]. lia.
Qed.

(** X4.  The renaming of a dict never adds an entry; and when the new
    names of its keys are pairwise different the result has the entries
    of the input in their order, each with its new name and its
    processed value. *)
Theorem entries_after_renaming d :
  (exists e, normalize_field_names (JDict d) = JDict e
             /\ List.length e <= List.length d)
  /\ (distinct (map new_key_of (keys d)) = true ->
      normalize_field_names (JDict d) = JDict (map fix_item d)).
Proof.
  unfold normalize_field_names. split.
  - exists (fix_items d []). split; [ apply fix_fields_dict | ].
    apply (fix_items_length d []).
  - apply fix_fields_of_distinct.
Qed.

Lemma entries_after_renaming_witness :
  normalize_field_names
    (JDict [("unitPrice", JDict [("$gte", JInt 5)]); ("itemName", JStr "pen")])
  = JDict (map fix_item
             [("unitPrice", JDict [("$gte", JInt 5)]);
              ("itemName", JStr "pen")]).
Proof.
  apply (proj2 (entries_after_renaming _)). reflexivity.
Defined.

(** X5.  Under a new name the result of the renaming holds the processed
    value of the last key of the input that gets this name, however many
    keys share it. *)
Theorem last_of_colliding_keys_wins d1 k v d2 :
  (forall k', In k' (keys d2) -> new_key_of k' <> new_key_of k) ->
  exists e,
    normalize_field_names (JDict (d1 ++ (k, v) :: d2)) = JDict e
    /\ dict_get (new_key_of k) e = Some (fix_value v).
Proof.
  intros Hlast. exists (fix_items (d1 ++ (k, v) :: d2) []). split.
  - apply fix_fields_dict.
  - rewrite fix_items_app, fix_items_cons.
    rewrite fix_items_get_other by exact Hlast.
    apply dict_get_set_same.
Qed.

Lemma last_of_colliding_keys_wins_witness :
  exists e,
    normalize_field_names
      (JDict ([("totalPrice", JInt 1); ("total_price", JInt 2)]
              ++ ("TotalPrice", JInt 3) :: [("quantity", JInt 4)])) = JDict e
    /\ dict_get (new_key_of "TotalPrice") e = Some (fix_value (JInt 3)).
Proof.
  apply last_of_colliding_keys_wins.
  intros k' [ <- | [] ]. vm_compute. discriminate.
Defined.

(** The values of the keys that the renaming leaves alone. *)
Lemma fix_value_settled v :
  fix_fields v = v ->
  match v with
  | JStr s => if starts_with_sigil s then is_lowercase (drop_first s) else true
  | _ => true
  end = true ->
  fix_value v = v.
Proof.
  intros Hfix Href. destruct v as [ | | | | s | | ];
    try (unfold fix_value; cbn [fix_reference]; exact Hfix).
  destruct (starts_with_sigil s) eqn:E.
  - rewrite (fix_value_reference s E).
    rewrite (resolve_name_of_lowercase _ Href).
    destruct s as [ | c rest ]; [ discriminate E | ].
    cbn in E. apply Ascii.eqb_eq in E as ->. reflexivity.
  - unfold fix_value, fix_reference. now rewrite E.
Qed.

(** X6.  A query already in the naming convention comes back as it is:
    when no key outside the operators and no field reference has a
    letter with a lowercase form (snake_case names are such), the
    renaming changes nothing. *)
Theorem settled_query_unchanged t :
  distinct_keys t = true ->
  all_keys (plain_key_ok is_lowercase) t = true ->
  all_references is_lowercase t = true ->
  normalize_field_names t = t.
Proof.
  unfold normalize_field_names.
  induction t as [ | | | | | items IH | d IH ] using json_ind;
    intros Hdistinct Hkeys Hrefs; try reflexivity.
  - rewrite fix_fields_list. f_equal.
    cbn [distinct_keys all_keys all_references] in *.
    rewrite forallb_forall in Hdistinct, Hkeys, Hrefs.
    rewrite Forall_forall in IH.
    rewrite <- (map_id items) at 2. apply map_ext_in. auto.
  - cbn [distinct_keys all_keys all_references] in *.
    apply andb_true_iff in Hdistinct as [Hnd Hdistinct].
    rewrite forallb_forall in Hdistinct, Hkeys, Hrefs.
    rewrite Forall_forall in IH.
    assert (Hnames : forall item, In item d -> new_key_of (fst item) = fst item).
    { intros item Hitem. specialize (Hkeys _ Hitem).
      apply andb_true_iff in Hkeys as [Hk _]. unfold plain_key_ok in Hk.
      unfold new_key_of. destruct (starts_with_sigil (fst item));
        [ reflexivity | ].
      now apply resolve_name_of_lowercase. }
    assert (Hsame : map new_key_of (keys d) = keys d).
    { unfold keys. rewrite map_map. now apply map_ext_in. }
    rewrite fix_fields_of_distinct by now rewrite Hsame.
    f_equal. rewrite <- (map_id d) at 2. apply map_ext_in.
    intros [k v] Hitem. unfold fix_item.
    rewrite (Hnames _ Hitem). cbn [fst snd]. f_equal.
    specialize (Hkeys _ Hitem). specialize (Hrefs _ Hitem).
    specialize (Hdistinct _ Hitem). cbn [fst snd] in *.
    apply andb_true_iff in Hkeys as [_ Hkeys].
    apply fix_value_settled.
    + apply (IH _ Hitem); try assumption.
      destruct v; try exact Hrefs; reflexivity.
    + destruct v; try reflexivity. exact Hrefs.
Qed.

Lemma settled_query_unchanged_witness :
  normalize_field_names
    (JDict [("aggregate", JBool true);
            ("pipeline",
             JList [JDict [("$group",
                            JDict [("_id", JStr "$supplier_name");
                                   ("total_purchases",
                                    JDict [("$sum", JStr "$total_price")])])];
                    JDict [("$sort", JDict [("total_purchases", JInt (-1))])];
                    JDict [("$limit", JInt 5)]])])
  = JDict [("aggregate", JBool true);
           ("pipeline",
            JList [JDict [("$group",
                           JDict [("_id", JStr "$supplier_name");
                                  ("total_purchases",
                                   JDict [("$sum", JStr "$total_price")])])];
                   JDict [("$sort", JDict [("total_purchases", JInt (-1))])];
                   JDict [("$limit", JInt 5)]])].
Proof.
  apply settled_query_unchanged; reflexivity.
Defined.

(** ** The composite *)

Lemma fix_fields_twice t : fix_fields (fix_fields t) = fix_fields t.
Proof.
  induction t as [ | | | | | items IH | d IH ] using json_ind;
    try reflexivity.
  - rewrite !fix_fields_list. f_equal. rewrite map_map.
    apply map_ext_in. now apply Forall_forall.
  - rewrite !fix_fields_dict. f_equal. now apply fix_items_idem.
Qed.

Lemma fix_fields_wrap p :
  isinstance_list p = true ->
  fix_fields (wrap_pipeline p) = wrap_pipeline (fix_fields p).
Proof.
  intros Hp. unfold wrap_pipeline at 1.
  rewrite fix_fields_of_distinct by reflexivity.
  unfold wrap_pipeline. cbn [map]. unfold fix_item. cbn [fst snd].
  replace (new_key_of "aggregate") with "aggregate" by reflexivity.
  replace (new_key_of "pipeline") with "pipeline" by reflexivity.
  destruct p; try discriminate Hp. reflexivity.
Qed.

Lemma wrap_is_valid p :
  isinstance_list p = true -> is_valid_query_structure (wrap_pipeline p) = true.
Proof. intros Hp. destruct p; try discriminate Hp. reflexivity. Qed.

Lemma operator_key_mem x d :
  starts_with_sigil x = true ->
  dict_mem x (fix_items d []) = dict_mem x d.
Proof.
  intros Hx. destruct (dict_mem x d) eqn:E.
  - rewrite <- (new_key_of_sigil x Hx). apply fix_items_mem.
    now apply dict_mem_In.
  - destruct (dict_mem x (fix_items d [])) eqn:E'; [ | reflexivity ].
    apply dict_mem_In in E'. apply in_map_iff in E' as ([k' v'] & Hk & Hin).
    cbn in Hk. subst k'.
    apply fix_items_In in Hin as [ [] | (k & v & Hkv & Hname & _) ].
    assert (Hk : starts_with_sigil k = true).
    { rewrite <- new_key_of_kind, <- Hname. exact Hx. }
    rewrite (new_key_of_sigil k Hk) in Hname. subst k.
    assert (Hmem : dict_mem x d = true)
      by (apply dict_mem_In; exact (in_map fst _ _ Hkv)).
    congruence.
Qed.

Lemma Ok_inj {A : Type} (a b : A) : Ok a = Ok b -> a = b.
Proof. congruence. Qed.

Lemma validate_and_fix_query_dict d :
  validate_and_fix_query (JDict d) =
  Ok (if has_stage_key d then wrap_pipeline (JList [JDict d]) else JDict d).
Proof.
  unfold validate_and_fix_query, has_stage_key.
  destruct (_ || _); [ reflexivity | ]. now destruct (_ && _).
Qed.

Lemma renamed_key_origin x d :
  dict_mem x (fix_items d []) = true ->
  exists k, In k (keys d) /\ new_key_of k = x.
Proof.
  intros H. apply dict_mem_In in H.
  apply in_map_iff in H as ([k' v'] & Hk & Hin). cbn in Hk. subst k'.
  apply fix_items_In in Hin as [ [] | (k & v & Hkv & Hname & _) ].
  exists k. split; [ exact (in_map fst _ _ Hkv) | now symmetry ].
Qed.

Lemma generate_query_list items :
  generate_query (JList items) =
  Ok (wrap_pipeline (JList (map fix_fields items))).
Proof.
  rewrite generate_query_cases. cbn [validate_and_fix_query].
  unfold normalize_field_names.
  rewrite fix_fields_wrap by reflexivity.
  now rewrite wrap_is_valid by reflexivity.
Qed.

Lemma generate_query_stage d :
  has_stage_key d = true ->
  generate_query (JDict d) =
  Ok (wrap_pipeline (JList [fix_fields (JDict d)])).
Proof.
  intros H. rewrite generate_query_cases, validate_and_fix_query_dict, H.
  unfold normalize_field_names.
  rewrite fix_fields_wrap by reflexivity.
  now rewrite wrap_is_valid by reflexivity.
Qed.

Lemma generate_query_plain d :
  has_stage_key d = false ->
  generate_query (JDict d) =
  if is_valid_query_structure (JDict (fix_items d []))
  then Ok (JDict (fix_items d []))
  else Raise InvalidQueryStructure.
Proof.
  intros H. rewrite generate_query_cases, validate_and_fix_query_dict, H.
  unfold normalize_field_names. now rewrite fix_fields_dict.
Qed.

(** X7.  What the two checks of [generate_query] never refuse: a list,
    whatever its elements, a dict with one of the keys "$match",
    "$group", "$sort", and a dict without these keys and without a key
    whose new name is "aggregate" fail neither with "Query format not
    recognized" nor with "Invalid query structure after fixes"; and what
    [generate_query] returns for them is, in turn, the renamed list as
    the pipeline of an aggregate query, the renamed dict as the only
    stage of a pipeline, and the renamed dict itself. *)
Theorem queries_never_refused :
  (forall items,
      generate_query (JList items) <> Raise InvalidQueryFormat
      /\ generate_query (JList items) <> Raise InvalidQueryStructure
      /\ forall r,
           generate_query (JList items) = Ok r ->
           r = JDict [("aggregate", JBool true);
                      ("pipeline", JList (map normalize_field_names items))])
  /\ (forall d,
         has_stage_key d = true ->
         generate_query (JDict d) <> Raise InvalidQueryFormat
         /\ generate_query (JDict d) <> Raise InvalidQueryStructure
         /\ forall r,
              generate_query (JDict d) = Ok r ->
              r = JDict [("aggregate", JBool true);
                         ("pipeline", JList [normalize_field_names (JDict d)])])
  /\ (forall d,
         has_stage_key d = false ->
         (forall k, In k (keys d) -> new_key_of k <> "aggregate") ->
         generate_query (JDict d) <> Raise InvalidQueryFormat
         /\ generate_query (JDict d) <> Raise InvalidQueryStructure
         /\ forall r,
              generate_query (JDict d) = Ok r ->
              r = normalize_field_names (JDict d)).
Proof.
  split; [ | split ].
  - intros items. rewrite generate_query_list.
    repeat split; try discriminate.
    intros r Hr. apply Ok_inj in Hr. now subst r.
  - intros d Hstage. rewrite (generate_query_stage d Hstage).
    repeat split; try discriminate.
    intros r Hr. apply Ok_inj in Hr. now subst r.
  - intros d Hstage Hnone. rewrite (generate_query_plain d Hstage).
    unfold normalize_field_names. rewrite fix_fields_dict.
    unfold is_valid_query_structure.
    destruct (dict_mem "aggregate" (fix_items d [])) eqn:E.
    + apply renamed_key_origin in E as (k & Hk & Hname).
      now apply Hnone in Hk.
    + repeat split; try discriminate.
      intros r Hr. apply Ok_inj in Hr. now subst r.
Qed.

Lemma queries_never_refused_witness :
  generate_query (JDict [("$sort", JDict [("totalPrice", JInt (-1))])])
  <> Raise InvalidQueryStructure
  /\ generate_query (JDict [("fiscalYear", JStr "2023")])
     <> Raise InvalidQueryStructure.
Proof.
  destruct queries_never_refused as (_ & Hstage & Hfind). split.
  - apply (Hstage [("$sort", JDict [("totalPrice", JInt (-1))])]).
    reflexivity.
  - apply (Hfind [("fiscalYear", JStr "2023")]); [ reflexivity | ].
    intros k [ <- | [] ]. vm_compute. discriminate.
Defined.

(** X8.  The inputs the two checks of [generate_query] refuse.  It fails
    with "Query format not recognized" only on what is neither a list
    nor a dict; it fails with "Invalid query structure after fixes" only
    on a dict that has none of the keys "$match", "$group", "$sort" and
    has a key whose new name is "aggregate". *)
Theorem generate_query_failures q :
  (generate_query q = Raise InvalidQueryFormat ->
   isinstance_list q = false /\ isinstance_dict q = false)
  /\ (generate_query q = Raise InvalidQueryStructure ->
      exists d, q = JDict d /\ has_stage_key d = false
                /\ exists k, In k (keys d) /\ new_key_of k = "aggregate").
Proof.
  split; intros H.
  - destruct q as [ | b | n | f | s | items | d ]; try (split; reflexivity).
    + rewrite generate_query_list in H. discriminate H.
    + destruct (has_stage_key d) eqn:Hstage.
      * rewrite (generate_query_stage d Hstage) in H. discriminate H.
      * rewrite (generate_query_plain d Hstage) in H.
        destruct (is_valid_query_structure _); discriminate H.
  - destruct q as [ | b | n | f | s | items | d ];
      try (cbn in H; discriminate H);
      try (rewrite generate_query_list in H; discriminate H).
    destruct (has_stage_key d) eqn:Hstage.
    + rewrite (generate_query_stage d Hstage) in H. discriminate H.
    + rewrite (generate_query_plain d Hstage) in H.
      destruct (is_valid_query_structure _) eqn:V; [ discriminate H | ].
      exists d. split; [ reflexivity | ]. split; [ exact Hstage | ].
      apply renamed_key_origin. unfold is_valid_query_structure in V.
      destruct (dict_mem "aggregate" (fix_items d [])); [ reflexivity | ].
      discriminate V.
Qed.

Lemma generate_query_failures_witness :
  (isinstance_list (JInt 7) = false /\ isinstance_dict (JInt 7) = false)
  /\ exists d, JDict [("Aggregate", JInt 1)] = JDict d
               /\ has_stage_key d = false
               /\ exists k, In k (keys d) /\ new_key_of k = "aggregate".
Proof.
  split.
  - apply (proj1 (generate_query_failures (JInt 7))). reflexivity.
  - apply (proj2 (generate_query_failures (JDict [("Aggregate", JInt 1)]))).
    reflexivity.
Defined.

(** X9.  What [generate_query] returns is a dict that passes
    [is_valid_query_structure], and [generate_query] returns it
    unchanged when it is given again. *)
Theorem generate_query_result q r :
  generate_query q = Ok r ->
  is_valid_query_structure r = true
  /\ isinstance_dict r = true
  /\ normalize_field_names r = r
  /\ generate_query r = Ok r.
Proof.
  intros H.
  assert (Hwrapped : forall p,
             isinstance_list p = true -> fix_fields p = p ->
             is_valid_query_structure (wrap_pipeline p) = true
             /\ isinstance_dict (wrap_pipeline p) = true
             /\ normalize_field_names (wrap_pipeline p) = wrap_pipeline p
             /\ generate_query (wrap_pipeline p) = Ok (wrap_pipeline p)).
  { intros p Hp Hfix.
    assert (Hnorm : normalize_field_names (wrap_pipeline p) = wrap_pipeline p).
    { unfold normalize_field_names. now rewrite fix_fields_wrap, Hfix. }
    repeat split; try assumption; try now apply wrap_is_valid.
    rewrite generate_query_cases.
    replace (validate_and_fix_query (wrap_pipeline p))
      with (Ok (wrap_pipeline p)) by reflexivity.
    rewrite Hnorm. now rewrite wrap_is_valid. }
  destruct q as [ | b | n | f | s | items | d ]; try discriminate H.
  - rewrite generate_query_list in H. apply Ok_inj in H; subst r.
    apply Hwrapped; [ reflexivity | ].
    rewrite <- fix_fields_list. apply fix_fields_twice.
  - destruct (has_stage_key d) eqn:Hstage.
    + rewrite (generate_query_stage d Hstage) in H. apply Ok_inj in H; subst r.
      apply Hwrapped; [ reflexivity | ].
      change (fix_fields (JList [fix_fields (JDict d)]))
        with (JList [fix_fields (fix_fields (JDict d))]).
      now rewrite fix_fields_twice.
    + rewrite (generate_query_plain d Hstage) in H.
      destruct (is_valid_query_structure _) eqn:V; [ | discriminate H ].
      apply Ok_inj in H; subst r.
      assert (Hnorm : fix_fields (JDict (fix_items d [])) = JDict (fix_items d [])).
      { rewrite <- fix_fields_dict. apply fix_fields_twice. }
      repeat split; try assumption.
      rewrite generate_query_plain.
      * rewrite fix_fields_dict in Hnorm. injection Hnorm as ->.
        now rewrite V.
      * unfold has_stage_key in *.
        now rewrite !operator_key_mem by reflexivity.
Qed.

Lemma generate_query_result_witness :
  generate_query
    (JDict [("aggregate", JBool true);
            ("pipeline",
             JList [JDict [("$match", JDict [("fiscal_year", JStr "2023")])]])])
  = Ok (JDict [("aggregate", JBool true);
               ("pipeline",
                JList [JDict [("$match",
                               JDict [("fiscal_year", JStr "2023")])]])]).
Proof.
  apply (generate_query_result
           (JList [JDict [("$match", JDict [("fiscalYear", JStr "2023")])]])).
  reflexivity.
Defined.

(* ================================================================== *)
(** * Running the queries *)

Lemma generate_query_for_cases env question :
  generate_query_for env question =
  match model_response env question with
  | Ok parsed => generate_query parsed
  | Raise e =>
      Raise (Exception ("Error generating query: " ++ exn_str e)%string)
  end.
Proof.
  unfold generate_query_for, generate_query, try_except, bind.
  destruct (model_response env question) as [ parsed | e ]; reflexivity.
Qed.

Lemma generate_query_valid q r :
  generate_query q = Ok r -> is_valid_query_structure r = true.
Proof.
  rewrite generate_query_cases.
  destruct (validate_and_fix_query q) as [ fixed | e ]; [ | discriminate ].
  destruct (is_valid_query_structure _) eqn:V; [ | discriminate ].
  intros H. apply Ok_inj in H. now subst r.
Qed.

Lemma generate_query_for_valid env question r :
  generate_query_for env question = Ok r ->
  is_valid_query_structure r = true.
Proof.
  rewrite generate_query_for_cases.
  destruct (model_response env question); [ | discriminate ].
  apply generate_query_valid.
Qed.

Lemma generate_query_for_error env question e :
  generate_query_for env question = Raise e ->
  exists message,
    e = Exception ("Error generating query: " ++ message)%string.
Proof.
  rewrite generate_query_for_cases.
  destruct (model_response env question) as [ parsed | e0 ].
  - rewrite generate_query_cases.
    destruct (validate_and_fix_query parsed) as [ fixed | e1 ].
    + destruct (is_valid_query_structure _); [ discriminate | ].
      intros [= <-]. now exists "Invalid query structure after fixes".
    + intros [= <-]. now exists (exn_str e1).
  - intros [= <-]. now exists (exn_str e0).
Qed.

(** X10.  A query that [generate_query] returned is run without a
    missing key: when its "aggregate" is true, [aggregate] is called
    with its pipeline, a list; otherwise (no "aggregate", or false)
    [find] is called with the whole query. *)
Theorem generated_query_dispatch env question r :
  generate_query_for env question = Ok r ->
  exists d,
    r = JDict d
    /\ match dict_get "aggregate" d with
       | Some (JBool true) =>
           exists items,
             dict_get "pipeline" d = Some (JList items)
             /\ run_query env r
                = outcome_of (collection_aggregate env (JList items))
       | _ => run_query env r = outcome_of (collection_find env r)
       end.
Proof.
  intros H. apply generate_query_for_valid in H.
  destruct r as [ | | | | | | d ]; try discriminate H.
  exists d. split; [ reflexivity | ].
  unfold is_valid_query_structure, run_query, item_is, dict_mem in *.
  destruct (dict_get "aggregate" d) as [ a | ]; [ | reflexivity ].
  destruct a as [ | b | | | | | ]; try discriminate H.
  destruct (dict_get "pipeline" d) as [ p | ]; [ | discriminate H ].
  destruct p as [ | | | | | items | ]; try discriminate H.
  destruct b; cbn [truthy]; [ | reflexivity ].
  now exists items.
Qed.

Lemma generated_query_dispatch_witness :
  let env := {| model_response := fun _ => Ok (JList [JDict [("$limit", JInt 5)]]);
                collection_aggregate := fun _ => Rows [JNull];
                collection_find := fun _ => DbError "not called" |} in
  exists d,
    wrap_pipeline (JList [JDict [("$limit", JInt 5)]]) = JDict d
    /\ match dict_get "aggregate" d with
       | Some (JBool true) =>
           exists items,
             dict_get "pipeline" d = Some (JList items)
             /\ run_query env (wrap_pipeline (JList [JDict [("$limit", JInt 5)]]))
                = outcome_of (collection_aggregate env (JList items))
       | _ => run_query env (wrap_pipeline (JList [JDict [("$limit", JInt 5)]]))
              = outcome_of (collection_find env
                              (wrap_pipeline (JList [JDict [("$limit", JInt 5)]])))
       end.
Proof.
  intros env.
  apply (generated_query_dispatch env "top five"). reflexivity.
Defined.

(* ================================================================== *)
(** * The batch *)

Lemma rstrip_empty s : String.eqb (rstrip s) "" = all_chars is_space s.
Proof.
  induction s as [ | c rest IH ]; [ reflexivity | ].
  cbn [rstrip all_chars]. rewrite <- IH.
  destruct (rstrip rest); cbn.
  - now destruct (is_space c).
  - now rewrite andb_false_r.
Qed.

Lemma all_chars_drop_while p s :
  all_chars p (drop_while p s) = all_chars p s.
Proof.
  induction s as [ | c rest IH ]; [ reflexivity | ].
  cbn [drop_while all_chars]. destruct (p c) eqn:E; [ exact IH | ].
  cbn [all_chars]. now rewrite E.
Qed.

(** The lines skipped are those of whitespace only. *)
Lemma strip_blank line : String.eqb (strip line) "" = is_blank line.
Proof.
  unfold strip, lstrip, is_blank.
  now rewrite rstrip_empty, all_chars_drop_while.
Qed.

(** One turn of the loop appends nothing for a blank line, and for any
    other line one entry, to [successful_queries] or to the error log. *)
Lemma process_line_spec env n line st :
  exists new_errors new_successes,
    error_log (process_line env n line st) = error_log st ++ new_errors
    /\ successful_queries (process_line env n line st)
       = successful_queries st ++ new_successes
    /\ success_count (process_line env n line st)
       = success_count st + List.length new_successes
    /\ error_count (process_line env n line st)
       = error_count st + List.length new_errors
    /\ List.length new_successes + List.length new_errors
       = (if is_blank line then 0 else 1)
    /\ Forall (fun e => err_line_number e = n /\ error_entry_of env line e)
              new_errors
    /\ Forall (success_entry_of env line) new_successes.
Proof.
  unfold process_line. rewrite strip_blank.
  destruct (is_blank line) eqn:Hblank.
  - exists [], []. rewrite !app_nil_r. cbn. repeat split; auto.
  - destruct (generate_query_for env (strip line)) as [ query | e ] eqn:Hgen.
    + destruct (run_query env query) as [ results | message ] eqn:Hrun.
      * exists [], [ {| sq_question := strip line; sq_query := query;
                        sq_result_count := List.length results |} ].
        cbn [error_log successful_queries success_count error_count List.length].
        rewrite app_nil_r.
        repeat split; auto; try lia.
        constructor; [ | constructor ].
        unfold success_entry_of. cbn.
        repeat split; auto. now exists results.
      * exists [ {| err_line_number := n; err_question := strip line;
                    err_query := Some query;
                    err_error := ("Query execution failed: " ++ message)%string |} ],
               [].
        cbn [error_log successful_queries success_count error_count List.length].
        rewrite app_nil_r.
        repeat split; auto; try lia.
        constructor; [ | constructor ].
        split; [ reflexivity | ].
        unfold error_entry_of. cbn [err_question err_query err_error].
        repeat split; auto. right. exists query, message. auto.
    + destruct (generate_query_for_error _ _ _ Hgen) as (message & ->).
      exists [ {| err_line_number := n; err_question := strip line;
                  err_query := None;
                  err_error :=
                    ("Error processing question: "
                     ++ exn_str (Exception ("Error generating query: "
                                            ++ message)))%string |} ],
             [].
      cbn [error_log successful_queries success_count error_count List.length].
      rewrite app_nil_r.
      repeat split; auto; try lia.
      constructor; [ | constructor ].
      split; [ reflexivity | ].
      unfold error_entry_of. cbn [err_question err_query err_error].
      repeat split; auto. left. exists message. auto.
Qed.

Lemma questions_of_cons line rest :
  List.length (questions_of (line :: rest))
  = (if is_blank line then 0 else 1) + List.length (questions_of rest).
Proof. unfold questions_of. cbn. now destruct (is_blank line). Qed.

(** The whole loop. *)
Lemma process_lines_spec env lines : forall start st,
  exists new_errors new_successes,
    error_log (process_lines env start lines st) = error_log st ++ new_errors
    /\ successful_queries (process_lines env start lines st)
       = successful_queries st ++ new_successes
    /\ success_count (process_lines env start lines st)
       = success_count st + List.length new_successes
    /\ error_count (process_lines env start lines st)
       = error_count st + List.length new_errors
    /\ List.length new_successes + List.length new_errors
       = List.length (questions_of lines)
    /\ Forall (error_entry_at env start lines) new_errors
    /\ StronglySorted lt (map err_line_number new_errors)
    /\ Forall (success_entry_in env lines) new_successes.
Proof.
  induction lines as [ | line rest IH ]; intros start st.
  - exists [], []. cbn. rewrite !app_nil_r.
    repeat split; auto; constructor.
  - cbn [process_lines].
    destruct (process_line_spec env start line st)
      as (e1 & s1 & Hlog1 & Hsucc1 & Hsc1 & Hec1 & Hlen1 & Herr1 & Hok1).
    destruct (IH (S start) (process_line env start line st))
      as (e2 & s2 & Hlog2 & Hsucc2 & Hsc2 & Hec2 & Hlen2 & Herr2 & Hsorted2
          & Hok2).
    exists (e1 ++ e2), (s1 ++ s2).
    rewrite Hlog2, Hsucc2, Hsc2, Hec2, Hlog1, Hsucc1, Hsc1, Hec1.
    rewrite <- !app_assoc, !length_app, questions_of_cons.
    assert (Hlater : Forall (fun e => S start <= err_line_number e) e2).
    { eapply Forall_impl; [ | exact Herr2 ]. now intros e [He _]. }
    repeat split; try lia.
    + apply Forall_app. split.
      * eapply Forall_impl; [ | exact Herr1 ].
        intros e [Hn He]. split; [ lia | ].
        exists line. rewrite Hn, Nat.sub_diag. now split.
      * eapply Forall_impl; [ | exact Herr2 ].
        intros e (Hn & l & Hnth & He). split; [ lia | ].
        exists l. split; [ | exact He ].
        replace (err_line_number e - start)
          with (S (err_line_number e - S start)) by lia.
        exact Hnth.
    + rewrite map_app.
      assert (Hone : List.length e1 <= 1) by (destruct (is_blank line); lia).
      destruct e1 as [ | e [ | e' e1 ] ]; cbn in Hone; try lia.
      * exact Hsorted2.
      * cbn [map app]. constructor; [ exact Hsorted2 | ].
        apply Forall_map. eapply Forall_impl; [ | exact Hlater ].
        intros x Hx. inversion Herr1 as [ | ? ? [Hn _] _ ]; subst.
        cbn. lia.
    + apply Forall_app. split.
      * eapply Forall_impl; [ | exact Hok1 ].
        intros s Hs. exists line. split; [ now left | exact Hs ].
      * eapply Forall_impl; [ | exact Hok2 ].
        intros s (l & Hin & Hs). exists l. split; [ now right | exact Hs ].
Qed.

Lemma process_questions_file_state env lines st :
  fst (process_questions_file env lines st) =
  process_lines env 1 lines
    {| error_log := error_log st; success_count := success_count st;
       error_count := error_count st; successful_queries := [] |}.
Proof. reflexivity. Qed.

Lemma batch_counts_aux env lines st :
  exists new_errors,
    error_log (fst (process_questions_file env lines st))
    = error_log st ++ new_errors
    /\ error_count (fst (process_questions_file env lines st))
       = error_count st + List.length new_errors
    /\ success_count (fst (process_questions_file env lines st))
       = success_count st
         + List.length
             (successful_queries (fst (process_questions_file env lines st)))
    /\ List.length
         (successful_queries (fst (process_questions_file env lines st)))
       + List.length new_errors
       = List.length (questions_of lines).
Proof.
  rewrite process_questions_file_state.
  destruct (process_lines_spec env lines 1
              {| error_log := error_log st; success_count := success_count st;
                 error_count := error_count st; successful_queries := [] |})
    as (errs & succs & Hlog & Hsucc & Hsc & Hec & Hlen & _).
  cbn [error_log successful_queries success_count error_count app] in *.
  exists errs. rewrite Hsucc. auto.
Qed.

(** X11.  Every line of the file that is not blank is counted once, as a
    success or as an error, whatever the model and the database answer:
    the two counters grow by the numbers of entries added to
    [successful_queries] and to the error log, and these add up to the
    number of lines that are not whitespace only. *)
Theorem batch_counts env lines st :
  let st' := fst (process_questions_file env lines st) in
  exists new_errors,
    error_log st' = error_log st ++ new_errors
    /\ error_count st' = error_count st + List.length new_errors
    /\ success_count st'
       = success_count st + List.length (successful_queries st')
    /\ List.length (successful_queries st') + List.length new_errors
       = List.length (questions_of lines).
Proof. cbn zeta. apply batch_counts_aux. Qed.

(** X12.  Every entry added to the error log carries the number of a
    line of the file (the first line has number 1) and the text of that
    line without the whitespace around it; it either has no query and
    the message of a failed generation, or has the generated query and
    the message of a failed execution; the entries are in the order of
    the lines. *)
Theorem error_log_of_batch env lines st :
  exists new_errors,
    error_log (fst (process_questions_file env lines st))
    = error_log st ++ new_errors
    /\ Forall (error_entry_at env 1 lines) new_errors
    /\ StronglySorted lt (map err_line_number new_errors).
Proof.
  rewrite process_questions_file_state.
  destruct (process_lines_spec env lines 1
              {| error_log := error_log st; success_count := success_count st;
                 error_count := error_count st; successful_queries := [] |})
    as (errs & succs & Hlog & _ & _ & _ & _ & Herr & Hsorted & _).
  exists errs. auto.
Qed.

(** X13.  Every entry of [successful_queries] comes from a line of the
    file that is not blank: its query is what [generate_query] returned
    for the stripped line, passes [is_valid_query_structure], was run
    without error, and [result_count] is the number of documents the
    run gave. *)
Theorem successes_of_batch env lines st :
  Forall (fun s => success_entry_in env lines s
                   /\ is_valid_query_structure (sq_query s) = true)
         (successful_queries (fst (process_questions_file env lines st))).
Proof.
  rewrite process_questions_file_state.
  destruct (process_lines_spec env lines 1
              {| error_log := error_log st; success_count := success_count st;
                 error_count := error_count st; successful_queries := [] |})
    as (errs & succs & _ & Hsucc & _ & _ & _ & _ & _ & Hok).
  rewrite Hsucc. cbn [successful_queries app].
  eapply Forall_impl; [ | exact Hok ].
  intros s Hs. split; [ exact Hs | ].
  destruct Hs as (line & _ & _ & _ & Hgen & _).
  now apply generate_query_for_valid in Hgen.
Qed.

(** The loop of [process_lines] is the loop over [enumerate]. *)
Lemma process_lines_enumerate env lines : forall start st,
  process_lines env start lines st =
  fold_left (fun acc numbered =>
               process_line env (fst numbered) (snd numbered) acc)
            (enumerate start lines) st.
Proof.
  induction lines as [ | line rest IH ]; intros start st; [ reflexivity | ].
  cbn [process_lines]. rewrite IH. reflexivity.
Qed.





(* ================================================================== *)
(** * The field references of the result *)

Lemma all_references_fix_fields (ok_in ok_out : string -> bool) :
  (forall s, ok_in s = true -> ok_out (resolve_name s) = true) ->
  forall t, all_references ok_in t = true ->
            all_references ok_out (fix_fields t) = true.
Proof.
  intros Hname. induction t as [ | | | | | items IH | d IH ] using json_ind;
    intros Hin; try reflexivity.
  - rewrite fix_fields_list. cbn [all_references] in *.
    rewrite forallb_forall in *. rewrite Forall_forall in IH.
    intros x Hx. apply in_map_iff in Hx as (y & <- & Hy). auto.
  - rewrite fix_fields_dict. cbn [all_references] in *.
    rewrite forallb_forall in *. rewrite Forall_forall in IH.
    intros [k' v'] Hitem. cbn [snd].
    apply fix_items_In in Hitem as [ [] | (k & v & Hkv & -> & ->) ].
    specialize (Hin _ Hkv). specialize (IH _ Hkv). cbn [snd] in Hin, IH.
    destruct v as [ | b | n | f | s | items | e ];
      try reflexivity.
    + destruct (starts_with_sigil s) eqn:E.
      * rewrite (fix_value_reference s E). cbn. now apply Hname.
      * unfold fix_value, fix_reference. rewrite E. cbn [fix_fields].
        now rewrite E.
    + unfold fix_value. cbn [fix_reference]. specialize (IH Hin).
      rewrite fix_fields_list in *. exact IH.
    + unfold fix_value. cbn [fix_reference]. specialize (IH Hin).
      rewrite fix_fields_dict in *. exact IH.
Qed.

Lemma all_references_trivial t : all_references (fun _ => true) t = true.
Proof.
  induction t as [ | | | | | items IH | d IH ] using json_ind;
    try reflexivity; cbn [all_references]; rewrite forallb_forall;
    rewrite Forall_forall in IH.
  - exact IH.
  - intros [k v] Hitem. specialize (IH _ Hitem). cbn [snd] in *.
    destruct v; try exact IH; try reflexivity.
    now destruct (starts_with_sigil s).
Qed.

(** X15.  In the result of [normalize_field_names] the name of every
    field reference that is the value of a key has no uppercase letter
    A-Z; and when these names are written with letters, digits and
    underscores only in the input, they are in snake_case in the
    result. *)
Theorem references_after_normalization t :
  all_references no_upper (normalize_field_names t) = true
  /\ (all_references is_identifier t = true ->
      all_references is_snake_case (normalize_field_names t) = true).
Proof.
  unfold normalize_field_names. split.
  - apply (all_references_fix_fields (fun _ => true));
      [ | apply all_references_trivial ].
    intros s _. apply resolve_name_no_upper.
  - apply all_references_fix_fields. apply resolve_name_identifier.
Qed.

Lemma references_after_normalization_witness :
  all_references is_snake_case
    (normalize_field_names
       (JDict [("$group",
                JDict [("_id", JStr "$departmentName");
                       ("total", JDict [("$sum", JStr "$lineTotal2")])])]))
  = true.
Proof.
  apply (proj2 (references_after_normalization _)). reflexivity.
Defined.
